(** * tmp-consul-clean: a shallow embedding of [main.go]

    The program lists the immediate children of a temp directory, keeps
    the ones whose names look like disposable build/test artefacts, sums
    their sizes as reported by [du], removes them (unless [-dry-run]) and
    prints a one-line summary.

    Layout of this development:
    - models of the Go library functions the program calls ([strings],
      [strconv], [unicode/utf8], [regexp], [path/filepath]);
    - the operating system as a class of state-passing operations, and a
      small state-and-output monad;
    - the functions of [main.go], in source order;
    - the part of the later revision of the same file that differs
      ([isPermDenied] and its [run]);
    - [main] and [nukeTree], and the first revision of the file;
    - the statements about them: first those on the rules, the scan, the
      formatter and the phases of a run, then further ones on what a run
      reads, touches and leaves behind, and on how the three revisions
      relate. *)

From Stdlib Require Import ZArith List String Ascii Bool Arith Lia.
From Stdlib Require Import DecimalString.
Import ListNotations.

Local Open Scope string_scope.
Local Open Scope list_scope.
Local Open Scope nat_scope.

(** ** Go's [strings] package *)

Module strings.

(** [strings.HasPrefix(s, prefix)]: note the argument order. *)
Definition HasPrefix (s pfx : string) : bool := String.prefix pfx s.

(** [strings.Contains(s, substr)]: some suffix of [s] starts with
    [substr]. *)
Fixpoint Contains (s substr : string) : bool :=
  HasPrefix s substr ||
  match s with
  | EmptyString => false
  | String _ s' => Contains s' substr
  end.

Definition lowerByte (c : ascii) : ascii :=
  let n := nat_of_ascii c in
  if (65 <=? n) && (n <=? 90) then ascii_of_nat (n + 32) else c.

(** [strings.ToLower] on ASCII text: the letters [A-Z] are mapped, every
    other byte is kept (Go also maps the upper-case runes beyond ASCII;
    the model covers descriptions written in ASCII). *)
Fixpoint ToLower (s : string) : string :=
  match s with
  | EmptyString => EmptyString
  | String c s' => String (lowerByte c) (ToLower s')
  end.

(** [s[i:]], the empty string when [i] is past the end. *)
Fixpoint from (i : nat) (s : string) : string :=
  match i, s with
  | O, _ => s
  | S _, EmptyString => EmptyString
  | S i', String _ s' => from i' s'
  end.

(** [strings.Split(s, string(sep))] for a one-byte separator. *)
Fixpoint Split (sep : ascii) (s : string) : list string :=
  match s with
  | EmptyString => [EmptyString]
  | String c s' =>
      if Ascii.eqb c sep then EmptyString :: Split sep s'
      else match Split sep s' with
           | [] => [String c EmptyString]
           | hd :: tl => String c hd :: tl
           end
  end.

(** [strings.Join(elems, sep)]. *)
Fixpoint Join (elems : list string) (sep : string) : string :=
  match elems with
  | [] => EmptyString
  | [e] => e
  | e :: rest => (e ++ sep ++ Join rest sep)%string
  end.

End strings.

(** ** Go's [strconv] package *)

Module strconv.

Definition MaxInt64 : Z := (2 ^ 63 - 1)%Z.
Definition MinInt64 : Z := (- 2 ^ 63)%Z.

(** [strconv.FormatInt(v, 10)]. *)
Definition FormatInt (v : Z) : string :=
  NilEmpty.string_of_int (Z.to_int v).

Definition isDigit (c : ascii) : bool :=
  let n := nat_of_ascii c in (48 <=? n) && (n <=? 57).

Definition digitVal (c : ascii) : Z := Z.of_nat (nat_of_ascii c - 48).

Fixpoint parseDigits (s : string) (acc : Z) : option Z :=
  match s with
  | EmptyString => Some acc
  | String c s' =>
      if isDigit c then parseDigits s' (10 * acc + digitVal c)%Z else None
  end.

(** [strconv.ParseInt(s, 10, 64)] on unsigned digit strings, the only
    ones [estimateTreeSize] passes: [None] stands for the syntax and
    range errors. *)
Definition ParseInt (s : string) : option Z :=
  match s with
  | EmptyString => None
  | _ =>
      match parseDigits s 0%Z with
      | Some v => if (v <=? MaxInt64)%Z then Some v else None
      | None => None
      end
  end.

End strconv.

(** ** 64-bit signed arithmetic *)

(** Go's [int64] addition wraps around. *)
Definition wrap64 (z : Z) : Z :=
  ((z + 2 ^ 63) mod 2 ^ 64 - 2 ^ 63)%Z.

Definition add64 (a b : Z) : Z := wrap64 (a + b).

(** ** Go's [unicode/utf8] package *)

Module utf8.

Definition inRange (lo hi : nat) (c : ascii) : bool :=
  let n := nat_of_ascii c in (lo <=? n) && (n <=? hi).

(** Continuation bytes, [locb..hicb]. *)
Definition isCont : ascii -> bool := inRange 128 191.

(** The [first] table with its accept ranges: for a leading byte of a
    multi-byte sequence, the size of the sequence and the range allowed
    for the second byte; [None] for ASCII and for invalid leading
    bytes. *)
Definition first (c : ascii) : option (nat * (nat * nat)) :=
  let n := nat_of_ascii c in
  if n <? 194 then None
  else if n <=? 223 then Some (2, (128, 191))
  else if n =? 224 then Some (3, (160, 191))
  else if n <=? 236 then Some (3, (128, 191))
  else if n =? 237 then Some (3, (128, 159))
  else if n <=? 239 then Some (3, (128, 191))
  else if n =? 240 then Some (4, (144, 191))
  else if n <=? 243 then Some (4, (128, 191))
  else if n =? 244 then Some (4, (128, 143))
  else None.

(** The width returned by [utf8.DecodeRuneInString]: the number of bytes
    of the first rune of [s]; an invalid or truncated encoding is one
    byte wide (and decodes to [RuneError]). *)
Definition DecodeRuneInString_width (s : string) : nat :=
  match s with
  | EmptyString => 0
  | String s0 t =>
      match first s0 with
      | None => 1
      | Some (sz, (lo, hi)) =>
          if String.length s <? sz then 1 else
          match t with
          | EmptyString => 1
          | String s1 t1 =>
              if negb (inRange lo hi s1) then 1
              else if sz <=? 2 then 2
              else match t1 with
                   | EmptyString => 1
                   | String s2 t2 =>
                       if negb (isCont s2) then 1
                       else if sz <=? 3 then 3
                       else match t2 with
                            | EmptyString => 1
                            | String s3 _ =>
                                if negb (isCont s3) then 1 else 4
                            end
                   end
          end
      end
  end.

End utf8.

(** ** Go's [regexp] package *)

Module regexp.

(** The syntax trees the patterns of [main.go] parse to (the operators of
    [regexp/syntax], concatenation and alternation made binary). *)
Inductive Regexp : Type :=
| OpEmptyMatch
| OpLiteral (c : ascii)
| OpAnyCharNotNL
| OpBeginText
| OpEndText
| OpConcat (r1 r2 : Regexp)
| OpAlternate (r1 r2 : Regexp)
| OpStar (r : Regexp).

Definition newline : ascii := ascii_of_nat 10.

(** The iteration of a starred sub-expression: stop here, or match the
    body once more, provided it consumed input.  [fuel] bounds the
    number of consuming iterations; the length of the text is enough. *)
Fixpoint star_loop (body : nat -> (nat -> bool) -> bool) (k : nat -> bool)
         (fuel i : nat) : bool :=
  k i ||
  match fuel with
  | O => false
  | S fuel' => body i (fun m => (i <? m) && star_loop body k fuel' m)
  end.

(** [accepts w r i k]: [r] matches [w] from byte offset [i] up to some
    offset that the continuation [k] accepts.  The input is stepped as
    [regexp]'s [inputString.step] does: one rune at a time, decoded by
    [utf8.DecodeRuneInString]. *)
Fixpoint accepts (w : string) (r : Regexp) (i : nat) (k : nat -> bool)
  : bool :=
  match r with
  | OpEmptyMatch => k i
  | OpLiteral c =>
      match strings.from i w with
      | String c' _ => Ascii.eqb c c' && k (S i)
      | EmptyString => false
      end
  | OpAnyCharNotNL =>
      match strings.from i w with
      | String c' _ =>
          negb (Ascii.eqb c' newline) &&
          k (i + utf8.DecodeRuneInString_width (strings.from i w))
      | EmptyString => false
      end
  | OpBeginText => (i =? 0) && k i
  | OpEndText => (i =? String.length w) && k i
  | OpConcat r1 r2 => accepts w r1 i (fun m => accepts w r2 m k)
  | OpAlternate r1 r2 => accepts w r1 i k || accepts w r2 i k
  | OpStar r1 => star_loop (accepts w r1) k (String.length w) i
  end.

(** The method [MatchString(s)] of a compiled pattern: an unanchored
    search, the match may start at any offset of [s] and end anywhere. *)
Definition MatchString (re : Regexp) (s : string) : bool :=
  existsb (fun i => accepts s re i (fun _ => true))
          (seq 0 (S (String.length s))).

(** Building blocks for writing patterns down. *)
Fixpoint lit (s : string) : Regexp :=
  match s with
  | EmptyString => OpEmptyMatch
  | String c EmptyString => OpLiteral c
  | String c s' => OpConcat (OpLiteral c) (lit s')
  end.

Fixpoint concat (rs : list Regexp) : Regexp :=
  match rs with
  | [] => OpEmptyMatch
  | [r] => r
  | r :: rs' => OpConcat r (concat rs')
  end.

Definition anyStar : Regexp := OpStar OpAnyCharNotNL.

(** What a match is, independently of any matching strategy:
    [Matches w r i j] when [r] matches the bytes of [w] from offset [i]
    to offset [j]. *)
Inductive Matches (w : string) : Regexp -> nat -> nat -> Prop :=
| MEmpty i : Matches w OpEmptyMatch i i
| MLiteral c i rest :
    strings.from i w = String c rest -> Matches w (OpLiteral c) i (S i)
| MAny c i rest :
    strings.from i w = String c rest -> c <> newline ->
    Matches w OpAnyCharNotNL i
            (i + utf8.DecodeRuneInString_width (strings.from i w))
| MBegin : Matches w OpBeginText 0 0
| MEnd : Matches w OpEndText (String.length w) (String.length w)
| MConcat r1 r2 i m j :
    Matches w r1 i m -> Matches w r2 m j -> Matches w (OpConcat r1 r2) i j
| MAltL r1 r2 i j : Matches w r1 i j -> Matches w (OpAlternate r1 r2) i j
| MAltR r1 r2 i j : Matches w r2 i j -> Matches w (OpAlternate r1 r2) i j
| MStarNil r i : Matches w (OpStar r) i i
| MStarCons r i m j :
    Matches w r i m -> Matches w (OpStar r) m j -> Matches w (OpStar r) i j.

(** A whole-string match: the pattern matches [s] from its first byte
    to its last. *)
Definition FullMatch (re : Regexp) (s : string) : Prop :=
  Matches s re 0 (String.length s).

(** Patterns written [^...$]. *)
Fixpoint endsAtEndText (re : Regexp) : bool :=
  match re with
  | OpEndText => true
  | OpConcat _ r2 => endsAtEndText r2
  | _ => false
  end.

Definition anchored (re : Regexp) : bool :=
  match re with
  | OpConcat OpBeginText r => endsAtEndText r
  | _ => false
  end.

End regexp.

(** ** Go's [path/filepath] package (Unix) *)

Module filepath.

Definition Separator : ascii := "/"%char.

(** The element loop of [Clean], on the path split at separators: [out]
    is the stack of elements kept so far, innermost first.  Empty and
    [.] elements are dropped; [..] removes the element before it, is
    dropped at the root, and is kept at the start of a relative path. *)
Fixpoint cleanElems (rooted : bool) (elems out : list string)
  : list string :=
  match elems with
  | [] => rev out
  | e :: rest =>
      if String.eqb e "" then cleanElems rooted rest out
      else if String.eqb e "." then cleanElems rooted rest out
      else if String.eqb e ".." then
        match out with
        | top :: out' =>
            if String.eqb top ".." then
              cleanElems rooted rest (if rooted then out else e :: out)
            else cleanElems rooted rest out'
        | [] => cleanElems rooted rest (if rooted then out else e :: out)
        end
      else cleanElems rooted rest (e :: out)
  end.

(** [filepath.Clean(path)]. *)
Definition Clean (path : string) : string :=
  match path with
  | EmptyString => "."
  | String c _ =>
      let rooted := Ascii.eqb c Separator in
      let body :=
        strings.Join (cleanElems rooted (strings.Split Separator path) [])
                     "/" in
      if rooted then String Separator body
      else if String.eqb body "" then "." else body
  end.

(** [filepath.Join(a, b)]: the elements from the first non-empty one on
    are joined by a separator and the result is cleaned. *)
Definition Join (a b : string) : string :=
  if negb (String.eqb a "") then Clean (a ++ "/" ++ b)
  else if negb (String.eqb b "") then Clean b
  else "".

End filepath.

(** ** The operating system, and the monad the program runs in *)

(** What [ReadDir] reports for a directory entry: the two methods of
    [os.FileInfo] the program calls. *)
Record FileInfo : Type := { Name : string; IsDir : bool }.

(** A Go [error] is identified with the text of its [Error()] method,
    the only thing the program looks at; a [nil] error is [None]. *)
Definition error : Type := string.

(** The result of running a command with [cmd.Run()], its output
    captured. *)
Record CmdResult : Type :=
  { runErr : option error; stdout : string; stderr : string }.

(** The external collaborators: each call may depend on the state of the
    world and change it. *)
Class OS : Type :=
  { World : Type;
    (** [ioutil.ReadDir(dirname)] *)
    os_ReadDir : string -> World -> (list FileInfo * option error) * World;
    (** [exec.Command("du", "-s", "--block-size=1", d).Run()] *)
    exec_du : string -> World -> CmdResult * World;
    (** [os.RemoveAll(path)] *)
    os_RemoveAll : string -> World -> option error * World }.

(** What a run does that can be observed from outside, in order. *)
Inductive event : Type :=
| ReadDirCall (dirname : string)
| DuCall (path : string)
| RemoveAllCall (path : string)
| Stdout (text : string)
| Stderr (text : string).

Definition isRemoveAllCall (ev : event) : bool :=
  match ev with RemoveAllCall _ => true | _ => false end.

Definition isDuCall (ev : event) : bool :=
  match ev with DuCall _ => true | _ => false end.

Definition LF : string := String (ascii_of_nat 10) EmptyString.

Section Monad.
Context {os : OS}.

(** A computation yields a value, the world it leaves and the events it
    produced. *)
Definition M (A : Type) : Type := World -> A * World * list event.

Definition ret {A} (a : A) : M A := fun w => (a, w, []).

Definition bind {A B} (c : M A) (k : A -> M B) : M B :=
  fun w =>
    let '(a, w1, ev1) := c w in
    let '(b, w2, ev2) := k a w1 in
    (b, w2, ev1 ++ ev2).

Definition ReadDir (dirname : string) : M (list FileInfo * option error) :=
  fun w => let (r, w') := os_ReadDir dirname w in (r, w', [ReadDirCall dirname]).

Definition du (d : string) : M CmdResult :=
  fun w => let (r, w') := exec_du d w in (r, w', [DuCall d]).

Definition RemoveAll (path : string) : M (option error) :=
  fun w => let (r, w') := os_RemoveAll path w in (r, w', [RemoveAllCall path]).

(** [fmt.Printf], the format already expanded. *)
Definition Printf (text : string) : M unit := fun w => (tt, w, [Stdout text]).

(** [fmt.Fprintf(os.Stderr, ...)]. *)
Definition Eprintf (text : string) : M unit := fun w => (tt, w, [Stderr text]).

End Monad.

Notation "x <- c1 ;; c2" := (bind c1 (fun x => c2))
  (at level 61, c1 at next level, right associativity).
Notation "' pat <- c1 ;; c2" :=
  (bind c1 (fun x => match x with pat => c2 end))
  (at level 61, pat pattern, c1 at next level, right associativity).
Notation "c1 ;; c2" := (bind c1 (fun _ => c2))
  (at level 61, right associativity).

(** The three components of an outcome. *)
Definition result {A W} (o : A * W * list event) : A := fst (fst o).
Definition world {A W} (o : A * W * list event) : W := snd (fst o).
Definition events {A W} (o : A * W * list event) : list event := snd o.

(** ** [main.go] *)

(** *** [humanizeBytes] *)

Definition unitF (v : Z) (s : string) : string :=
  (strconv.FormatInt v ++ "" ++ s)%string.

(** [v /= 1024] on [int64] truncates toward zero. *)
Definition humanizeBytes (v : Z) : string :=
  if (v <? 1024)%Z then unitF v "B" else
  let v := (v ÷ 1024)%Z in
  if (v <? 1024)%Z then unitF v "K" else
  let v := (v ÷ 1024)%Z in
  if (v <? 1024)%Z then unitF v "M" else
  let v := (v ÷ 1024)%Z in
  if (v <? 1024)%Z then unitF v "G" else
  let v := (v ÷ 1024)%Z in
  unitF v "T".

(** *** The match rules of [scanForToplevelStuff] *)

Definition eligiblePrefixes : list string :=
  [ "007-agent"; "agent_smith"; "go-build"; "jones-agent"; "Test";
    "test-agent"; "test-consul-agent"; "consul"; "Agent1-agent";
    "Agent2-agent"; "betty-agent"; "bob-agent"; "bonnie-agent";
    "dc1-agent"; "dc2-agent"; "gopls-"; "dc1-consul"; "dc2-consul";
    "test-container" ].

Definition eligibleFilePrefixes : list string :=
  [ "snapshot"; "config-err-" ].

Import regexp.

(** The five patterns, parsed by hand; an unescaped [.] in the source is
    [OpAnyCharNotNL]. *)
Definition eligibleFilePatterns : list Regexp :=
  [ (* ^go\..*\.(sum|mod)$ *)
    concat [OpBeginText; lit "go."; anyStar; lit ".";
            OpAlternate (lit "sum") (lit "mod"); OpEndText];
    (* ^gopls\..*-heap.pb.gz$ *)
    concat [OpBeginText; lit "gopls."; anyStar; lit "-heap"; OpAnyCharNotNL;
            lit "pb"; OpAnyCharNotNL; lit "gz"; OpEndText];
    (* ^gopls\..*-goroutines.txt$ *)
    concat [OpBeginText; lit "gopls."; anyStar; lit "-goroutines";
            OpAnyCharNotNL; lit "txt"; OpEndText];
    (* ^gopls-.*.log$ *)
    concat [OpBeginText; lit "gopls-"; anyStar; OpAnyCharNotNL; lit "log";
            OpEndText];
    (* ^gopls\..*\.zip$ *)
    concat [OpBeginText; lit "gopls."; anyStar; lit ".zip"; OpEndText] ].

(** The closure [shouldDelete]; a [for] loop that returns [true] at the
    first hit is [existsb]. *)
Definition shouldDelete (dir : bool) (name : string) : bool :=
  if dir then
    if String.eqb name "consul-test" then true
    else existsb (fun pfx => strings.HasPrefix name pfx) eligiblePrefixes
  else
    if existsb (fun pfx => strings.HasPrefix name pfx) eligibleFilePrefixes
    then true
    else existsb (fun patt => MatchString patt name) eligibleFilePatterns.

(** *** [duRE] *)

Definition isSpace (c : ascii) : bool :=
  let n := nat_of_ascii c in
  (n =? 9) || (n =? 10) || (n =? 12) || (n =? 13) || (n =? 32).

(** The longest prefix of [s] whose bytes satisfy [p], and the rest. *)
Fixpoint span (p : ascii -> bool) (s : string) : string * string :=
  match s with
  | EmptyString => (EmptyString, EmptyString)
  | String c s' =>
      if p c then let (a, b) := span p s' in (String c a, b)
      else (EmptyString, s)
  end.

(** [duRE.FindStringSubmatch(s)] for [duRE = ^([0-9]+)\s+]: both
    repetitions are greedy and a digit is no space, so a match takes all
    the leading digits and all the spaces after them.  The result is the
    match and its one group, [None] for Go's [nil]. *)
Definition duRE_FindStringSubmatch (s : string) : option (list string) :=
  let (digits, rest) := span strconv.isDigit s in
  let (spaces, _) := span isSpace rest in
  if String.eqb digits "" || String.eqb spaces "" then None
  else Some [(digits ++ spaces)%string; digits].

Section Program.
Context {os : OS}.

(** *** [scanForToplevelStuff] *)

Definition scanForToplevelStuff (tmpRoot : string)
  : M (list string * option error) :=
  '(files, err) <- ReadDir tmpRoot ;;
  match err with
  | Some e => ret ([], Some e)
  | None =>
      ret (fold_left
             (fun roots st =>
                if shouldDelete (IsDir st) (Name st)
                then roots ++ [filepath.Join tmpRoot (Name st)]
                else roots)
             files [],
           None)
  end.

(** *** [estimateTreeSize] *)

Definition estimateTreeSize (d : string) : M (Z * option error) :=
  if String.eqb d "" then ret (0%Z, Some "missing directory name") else
  cmd <- du d ;;
  match runErr cmd with
  | Some err => ret (0%Z, Some (err ++ ": " ++ stderr cmd)%string)
  | None =>
      let s := stdout cmd in
      match duRE_FindStringSubmatch s with
      | Some [_; m1] =>
          match strconv.ParseInt m1 with
          | Some v => ret (v, None)
          | None => ret (0%Z, Some ("unrecognized du output: " ++ s)%string)
          end
      | _ => ret (0%Z, Some ("unrecognized du output: " ++ s)%string)
      end
  end.

(** *** [run] *)

(** The first loop of [run], from the candidate [dirs] still to visit
    and the running [totalBytes]. *)
Fixpoint estimateLoop (dirs : list string) (totalBytes : Z)
  : M (Z * option error) :=
  match dirs with
  | [] => ret (totalBytes, None)
  | dir :: rest =>
      '(sz, err) <- estimateTreeSize dir ;;
      match err with
      | Some e =>
          if strings.Contains e "Permission denied" then
            Printf ("ERR: skipping " ++ dir ++ " for estimation: " ++ e ++ LF) ;;
            estimateLoop rest (add64 totalBytes sz)
          else ret (totalBytes, Some e)
      | None => estimateLoop rest (add64 totalBytes sz)
      end
  end.

(** The second loop of [run]. *)
Fixpoint deleteLoop (dryRun : bool) (dirs : list string) : M (option error) :=
  match dirs with
  | [] => ret None
  | dir :: rest =>
      if dryRun then
        Printf ("DRY-RUN: deleting " ++ dir ++ LF) ;;
        deleteLoop dryRun rest
      else
        Printf ("deleting " ++ dir ++ LF) ;;
        err <- RemoveAll dir ;;
        match err with
        | Some e =>
            if strings.Contains e "Permission denied" then
              Printf ("ERR: skipping " ++ dir ++ ": " ++ e ++ LF) ;;
              deleteLoop dryRun rest
            else ret (Some e)
        | None => deleteLoop dryRun rest
        end
  end.

(** The closing line of a run. *)
Definition summary (totalBytes : Z) (count : nat) : string :=
  ("estimated savings ~" ++ humanizeBytes totalBytes ++ " from " ++
   strconv.FormatInt (Z.of_nat count) ++ " directories" ++ LF)%string.

(** [run], the two flags [tmpRoot] and [dryRun] as arguments. *)
Definition run (tmpRoot : string) (dryRun : bool) : M (option error) :=
  if String.eqb tmpRoot "" then
    ret (Some "missing required -tmp-root argument")
  else
    '(dirs, err) <- scanForToplevelStuff tmpRoot ;;
    match err with
    | Some e => ret (Some e)
    | None =>
        '(totalBytes, err) <- estimateLoop dirs 0%Z ;;
        match err with
        | Some e => ret (Some e)
        | None =>
            err <- deleteLoop dryRun dirs ;;
            match err with
            | Some e => ret (Some e)
            | None =>
                Printf (summary totalBytes (List.length dirs)) ;;
                ret None
            end
        end
    end.

End Program.

(** ** The later revision of [main.go]

    The second file of the repository holds other revisions of the same
    program.  The latest differs from [main.go] in how errors are
    recognised, wrapped and logged; [humanizeBytes], the match rules and
    [estimateTreeSize] are the same and are shared here. *)

Module Revised.
Section Program.
Context {os : OS}.

Definition isPermDenied (err : option error) : bool :=
  match err with
  | Some e => strings.Contains (strings.ToLower e) "permission denied"
  | None => false
  end.

Definition logWarn (text : string) : M unit := Eprintf ("WARN: " ++ text ++ LF).
Definition logInfo (text : string) : M unit := Printf ("INFO: " ++ text ++ LF).

Definition scanForToplevelStuff (tmpRoot : string)
  : M (list string * option error) :=
  '(files, err) <- ReadDir tmpRoot ;;
  match err with
  | Some e =>
      ret ([], Some ("could not list contents of " ++ tmpRoot ++ ": " ++ e)%string)
  | None =>
      ret (fold_left
             (fun roots st =>
                if shouldDelete (IsDir st) (Name st)
                then roots ++ [filepath.Join tmpRoot (Name st)]
                else roots)
             files [],
           None)
  end.

Fixpoint estimateLoop (dirs : list string) (totalBytes : Z)
  : M (Z * option error) :=
  match dirs with
  | [] => ret (totalBytes, None)
  | dir :: rest =>
      '(sz, err) <- estimateTreeSize dir ;;
      if isPermDenied err then
        logWarn ("skipping " ++ dir ++ " for estimation: " ++
                 match err with Some e => e | None => "" end) ;;
        estimateLoop rest (add64 totalBytes sz)
      else
        match err with
        | Some e =>
            ret (totalBytes,
                 Some ("could not estimate tree size of " ++ dir ++ ": " ++ e)%string)
        | None => estimateLoop rest (add64 totalBytes sz)
        end
  end.

Fixpoint deleteLoop (dryRun : bool) (dirs : list string) : M (option error) :=
  match dirs with
  | [] => ret None
  | dir :: rest =>
      if dryRun then
        logInfo ("DRY-RUN: deleting " ++ dir) ;;
        deleteLoop dryRun rest
      else
        logInfo ("deleting: " ++ dir) ;;
        err <- RemoveAll dir ;;
        match err with
        | Some e =>
            if isPermDenied err then
              logWarn ("skipping " ++ dir ++ " for deletion: " ++ e) ;;
              deleteLoop dryRun rest
            else ret (Some ("failed to delete cruft " ++ dir ++ ": " ++ e)%string)
        | None => deleteLoop dryRun rest
        end
  end.

Definition run (tmpRoot : string) (dryRun : bool) : M (option error) :=
  if String.eqb tmpRoot "" then
    ret (Some "missing required -tmp-root argument")
  else
    '(dirs, err) <- scanForToplevelStuff tmpRoot ;;
    match err with
    | Some e => ret (Some ("failed to scan for cruft: " ++ e)%string)
    | None =>
        '(totalBytes, err) <- estimateLoop dirs 0%Z ;;
        match err with
        | Some e => ret (Some e)
        | None =>
            err <- deleteLoop dryRun dirs ;;
            match err with
            | Some e => ret (Some e)
            | None =>
                logInfo ("estimated savings ~" ++ humanizeBytes totalBytes ++
                         " from " ++
                         strconv.FormatInt (Z.of_nat (List.length dirs)) ++
                         " directories") ;;
                ret None
            end
        end
    end.

End Program.
End Revised.

(** ** Notions the statements use *)

(** A string starts with a prefix. *)
Definition StartsWith (s pfx : string) : Prop :=
  exists rest, s = (pfx ++ rest)%string.

(** A permission-denied condition, as an error's description shows it:
    the phrase occurs in the text, in any mix of cases. *)
Definition describesPermissionDenied (e : error) : bool :=
  strings.Contains (strings.ToLower e) "permission denied".

(** The rule for directories without the literal ["consul-test"] test. *)
Definition shouldDelete_prefixesOnly (dir : bool) (name : string) : bool :=
  if dir then
    existsb (fun pfx => strings.HasPrefix name pfx) eligiblePrefixes
  else
    if existsb (fun pfx => strings.HasPrefix name pfx) eligibleFilePrefixes
    then true
    else existsb (fun patt => MatchString patt name) eligibleFilePatterns.

(** The formatter as a walk down a list of units: below 1024 the value is
    rendered in the current unit, otherwise it is divided and the next
    unit is tried; past the last unit it is rendered in [T]. *)
Fixpoint humanizeSteps (units : list string) (v : Z) : string :=
  match units with
  | [] => unitF v "T"
  | u :: units' =>
      if (v <? 1024)%Z then unitF v u else humanizeSteps units' (v ÷ 1024)%Z
  end.

(** Whether a directory entry is kept as a candidate. *)
Definition eligible (st : FileInfo) : bool := shouldDelete (IsDir st) (Name st).

(** A computation all of whose events satisfy [P], in whatever world it
    starts. *)
Definition emitsOnly {os : OS} {A : Type} (P : event -> bool) (c : M A) : Prop :=
  forall w, forallb P (events (c w)) = true.

Definition notRemoveAll (ev : event) : bool := negb (isRemoveAllCall ev).
Definition notDu (ev : event) : bool := negb (isDuCall ev).

(** ** A scripted operating system

    The listing, the behaviour of [du] and the outcome of a removal are
    given as tables; the world is the list of paths removed so far, most
    recent first. *)

Definition scriptedOS (listing : list FileInfo) (duOf : string -> CmdResult)
           (rmOf : string -> option error) : OS :=
  {| World := list string;
     os_ReadDir := fun _ w => ((listing, None), w);
     exec_du := fun d w => (duOf d, w);
     os_RemoveAll := fun p w =>
       match rmOf p with
       | Some e => (Some e, w)
       | None => (None, p :: w)
       end |}.

Definition file (name : string) : FileInfo := {| Name := name; IsDir := false |}.
Definition dir (name : string) : FileInfo := {| Name := name; IsDir := true |}.

(** The listing of the specification's scenario. *)
Definition scenarioListing : list FileInfo :=
  [ dir "go-build-123"; file "snapshot.bin"; dir "keepme";
    file "gopls.abc-heap.pb.gz" ].

Definition TAB : string := String (ascii_of_nat 9) EmptyString.

(** [du] reporting 4096 bytes for every path. *)
Definition du4096 (d : string) : CmdResult :=
  {| runErr := None; stdout := "4096" ++ TAB ++ d ++ LF; stderr := "" |}.

(** [du] that cannot be started for one path: [exec] reports the errno
    text, in lower case, and nothing is written to standard error. *)
Definition duNotExecutable (locked : string) (d : string) : CmdResult :=
  if String.eqb d locked then
    {| runErr := Some "fork/exec /usr/bin/du: permission denied";
       stdout := ""; stderr := "" |}
  else du4096 d.

(** A removal failing on one path with the given description. *)
Definition rmFailsOn (bad : string) (e : error) (p : string) : option error :=
  if String.eqb p bad then Some e else None.

Definition rmOk (p : string) : option error := None.

(** ** The rest of [main.go] *)

(** [filepath.IsAbs(path)] on Unix. *)
Definition IsAbs (path : string) : bool := strings.HasPrefix path "/".

(** What [os.Lstat] gives [nukeTree]: the file information, an error
    that [os.IsNotExist] recognises, or any other error. *)
Inductive LstatResult : Type :=
| LstatInfo (st : FileInfo)
| LstatNotExist (e : error)
| LstatError (e : error).

Section Main.
Context {os : OS}.

(** [main], the flags already parsed into [tmpRoot] and [dryRun]; the
    value is the exit status of the process. *)
Definition main (tmpRoot : string) (dryRun : bool) : M nat :=
  err <- run tmpRoot dryRun ;;
  match err with
  | Some e => Eprintf ("ERROR: " ++ e ++ LF) ;; ret 1
  | None => ret 0
  end.

(** [os.Lstat(d)], and the prefix the [log] package puts before a
    message (the date and the time of the call). *)
Variable os_Lstat : string -> World -> LstatResult * World.
Variable logPrefix : string.

(** [nukeTree]; the call of [os.RemoveAll] at its end is commented out in
    the source. *)
Definition nukeTree (d : string) : M (option error) :=
  if negb (IsAbs d) then ret (Some ("not an absolute path: " ++ d)%string)
  else
    fun w =>
      let (r, w') := os_Lstat d w in
      match r with
      | LstatNotExist _ => (None, w', [])
      | LstatError e => (Some e, w', [])
      | LstatInfo st =>
          if negb (IsDir st)
          then (Some ("not a directory: " ++ d)%string, w', [])
          else (None, w', [Stderr (logPrefix ++ "NUKE: " ++ d ++ LF)])
      end.

End Main.

(** ** The first revision of [main.go]

    The other file of the repository starts with the earliest revision:
    directories only, seven prefixes, no tolerance for any error, and the
    summary printed before the deletions. *)

Module Original.

Definition eligiblePrefixes : list string :=
  [ "007-agent"; "agent_smith"; "go-build"; "jones-agent"; "Test";
    "test-agent"; "test-consul-agent" ].

Definition shouldDelete (name : string) : bool :=
  if String.eqb name "consul-test" then true
  else if strings.HasPrefix name "go-build" then true
  else existsb (fun pfx => strings.HasPrefix name pfx) eligiblePrefixes.

Section Program.
Context {os : OS}.

Definition scanForToplevelStuff (tmpRoot : string)
  : M (list string * option error) :=
  '(files, err) <- ReadDir tmpRoot ;;
  match err with
  | Some e => ret ([], Some e)
  | None =>
      ret (fold_left
             (fun roots st =>
                if IsDir st && shouldDelete (Name st)
                then roots ++ [filepath.Join tmpRoot (Name st)]
                else roots)
             files [],
           None)
  end.

(** Standard error is not captured here: a failure of [du] is returned
    as it is. *)
Definition estimateTreeSize (d : string) : M (Z * option error) :=
  if String.eqb d "" then ret (0%Z, Some "missing directory name") else
  cmd <- du d ;;
  match runErr cmd with
  | Some err => ret (0%Z, Some err)
  | None =>
      let s := stdout cmd in
      match duRE_FindStringSubmatch s with
      | Some [_; m1] =>
          match strconv.ParseInt m1 with
          | Some v => ret (v, None)
          | None => ret (0%Z, Some ("unrecognized du output: " ++ s)%string)
          end
      | _ => ret (0%Z, Some ("unrecognized du output: " ++ s)%string)
      end
  end.

Fixpoint estimateLoop (dirs : list string) (totalBytes : Z)
  : M (Z * option error) :=
  match dirs with
  | [] => ret (totalBytes, None)
  | dir :: rest =>
      '(sz, err) <- estimateTreeSize dir ;;
      match err with
      | Some e => ret (totalBytes, Some e)
      | None => estimateLoop rest (add64 totalBytes sz)
      end
  end.

Fixpoint deleteLoop (dryRun : bool) (dirs : list string) : M (option error) :=
  match dirs with
  | [] => ret None
  | dir :: rest =>
      if dryRun then
        Printf ("DRY-RUN: deleting " ++ dir ++ LF) ;;
        deleteLoop dryRun rest
      else
        Printf ("deleting " ++ dir ++ LF) ;;
        err <- RemoveAll dir ;;
        match err with
        | Some e => ret (Some e)
        | None => deleteLoop dryRun rest
        end
  end.

Definition run (tmpRoot : string) (dryRun : bool) : M (option error) :=
  if String.eqb tmpRoot "" then
    ret (Some "missing required -tmp-root argument")
  else
    '(dirs, err) <- scanForToplevelStuff tmpRoot ;;
    match err with
    | Some e => ret (Some e)
    | None =>
        '(totalBytes, err) <- estimateLoop dirs 0%Z ;;
        match err with
        | Some e => ret (Some e)
        | None =>
            Printf ("estimated savings ~" ++ humanizeBytes totalBytes ++
                    " from " ++
                    strconv.FormatInt (Z.of_nat (List.length dirs)) ++
                    " directories" ++ LF) ;;
            deleteLoop dryRun dirs
        end
    end.

End Program.
End Original.

(** ** More notions the statements use *)

(** The paths handed to [os.RemoveAll], and to [du], in the order of the
    calls. *)
Definition removals (evs : list event) : list string :=
  flat_map (fun ev => match ev with RemoveAllCall p => [p] | _ => [] end) evs.

Definition measurements (evs : list event) : list string :=
  flat_map (fun ev => match ev with DuCall p => [p] | _ => [] end) evs.

(** The calls made to the operating system, without the text written to
    the standard streams. *)
Definition isCall (ev : event) : bool :=
  match ev with
  | ReadDirCall _ | DuCall _ | RemoveAllCall _ => true
  | Stdout _ | Stderr _ => false
  end.

Definition calls (evs : list event) : list event := filter isCall evs.

(** [pre] is an initial segment of [l]. *)
Definition InitialSegment {A : Type} (pre l : list A) : Prop :=
  exists rest, l = pre ++ rest.

(** The candidate paths of a listing. *)
Definition candidates (tmpRoot : string) (files : list FileInfo) : list string :=
  map (fun st => filepath.Join tmpRoot (Name st)) (filter eligible files).

(** A list of bytes all satisfying [p]. *)
Fixpoint allBytes (p : ascii -> bool) (s : string) : bool :=
  match s with
  | EmptyString => true
  | String c s' => p c && allBytes p s'
  end.

(** The number a string of decimal digits denotes. *)
Fixpoint digitsValue (s : string) (acc : Z) : Z :=
  match s with
  | EmptyString => acc
  | String c s' => digitsValue s' (10 * acc + strconv.digitVal c)%Z
  end.

(** A name as a directory listing gives it: not empty, not [.] or [..],
    and without a separator. *)
Definition plainName (name : string) : bool :=
  negb (String.eqb name "") && negb (String.eqb name ".") &&
  negb (String.eqb name "..") &&
  allBytes (fun c => negb (Ascii.eqb c filepath.Separator)) name.

(** The entry [name] directly under the directory [base], [base] being a
    cleaned path. *)
Definition child (base name : string) : string :=
  if String.eqb base "/" then ("/" ++ name)%string
  else if String.eqb base "." then name
  else (base ++ "/" ++ name)%string.

(** The unit a value is rendered in, as a power of 1024 and its letter. *)
Definition unitOf (v : Z) : nat * string :=
  if (v <? 1024)%Z then (0, "B")
  else if (v <? 1024 ^ 2)%Z then (1, "K")
  else if (v <? 1024 ^ 3)%Z then (2, "M")
  else if (v <? 1024 ^ 4)%Z then (3, "G")
  else (4, "T").

(** [lstat] for the scripted operating system: one directory, one file,
    nothing else. *)
Definition scriptedLstat (d : string) (w : list string) : LstatResult * list string :=
  if String.eqb d "/tmp/go-build-123" then (LstatInfo (dir "go-build-123"), w)
  else if String.eqb d "/tmp/snapshot.bin" then (LstatInfo (file "snapshot.bin"), w)
  else (LstatNotExist ("lstat " ++ d ++ ": no such file or directory")%string, w).

(** A removal that is refused for one path, the way [main.go] recognises
    it. *)
Definition rmDenied (locked : string) (p : string) : option error :=
  if String.eqb p locked
  then Some ("unlinkat " ++ p ++ ": Permission denied")%string
  else None.

(** [du] failing on one path the way GNU [du] does. *)
Definition duDenied (locked : string) (d : string) : CmdResult :=
  if String.eqb d locked then
    {| runErr := Some "exit status 1"; stdout := "";
       stderr := ("du: cannot read directory '" ++ d ++ "': Permission denied" ++ LF)%string |}
  else du4096 d.

(** An operating system whose listing fails, whatever the directory. *)
Definition unlistableOS (e : error) : OS :=
  {| World := list string;
     os_ReadDir := fun _ w => (([], Some e), w);
     exec_du := fun d w => (du4096 d, w);
     os_RemoveAll := fun p w => (None, p :: w) |}.

(** The sum of a list of sizes. *)
Definition sumSizes (sizes : list Z) : Z := fold_right Z.add 0%Z sizes.

(** A removal that is refused for one path, described the way Go's [os]
    package words it, in lower case. *)
Definition rmGoDenied (locked : string) (p : string) : option error :=
  if String.eqb p locked
  then Some ("unlinkat " ++ p ++ ": permission denied")%string
  else None.

(** * Statements *)

(** ** The library models on sample inputs *)

Example Join_root_child :
  filepath.Join "/tmp" "go-build-123" = "/tmp/go-build-123" /\
  filepath.Join "/tmp/" "snapshot.bin" = "/tmp/snapshot.bin" /\
  filepath.Join "a/../.." "x" = "../x" /\
  filepath.Join "/a/../.." "x" = "/x" /\
  filepath.Join "" "x" = "x".
Proof. repeat split. Qed.

Example MatchString_samples :
  map (shouldDelete false)
      ["go.work.sum"; "go.sum"; "gopls.1-heap.pb.gz"; "gopls-x.log";
       "xgopls.a.zip"; "gopls.a.zip.bak"; "snapshot"; "consul-test"] =
  [true; false; true; true; false; false; true; false].
Proof. reflexivity. Qed.

Example MatchString_unanchored :
  MatchString (lit "b") "abc" = true /\
  MatchString (OpConcat OpBeginText (lit "b")) "abc" = false.
Proof. split; reflexivity. Qed.

Example duRE_samples :
  duRE_FindStringSubmatch ("4096" ++ TAB ++ "/tmp/x" ++ LF) =
    Some [("4096" ++ TAB)%string; "4096"] /\
  duRE_FindStringSubmatch "4096" = None /\
  duRE_FindStringSubmatch " 4096 " = None /\
  strconv.ParseInt "9223372036854775807" = Some strconv.MaxInt64 /\
  strconv.ParseInt "9223372036854775808" = None.
Proof. repeat split. Qed.

(** An unescaped [.] takes one rune: the two bytes of a two-byte
    encoding, a stray leading byte alone, never a newline. *)
Example AnyCharNotNL_steps_runes :
  let c3 := ascii_of_nat 195 in
  let a9 := ascii_of_nat 169 in
  shouldDelete false ("gopls.x-heap" ++ String c3 (String a9 "pb.gz")) = true /\
  shouldDelete false ("gopls.x-heap" ++ String c3 "pb.gz") = true /\
  shouldDelete false ("gopls.x-heap" ++ String a9 (String a9 "pb.gz")) = false /\
  shouldDelete false ("gopls.x-heap" ++ LF ++ "pb.gz") = false.
Proof. repeat split. Qed.

Example add64_wraps : add64 strconv.MaxInt64 1 = strconv.MinInt64.
Proof. reflexivity. Qed.

(** ** Arithmetic of the formatter *)

Lemma quot_1024_nonneg (v : Z) : (0 <= v -> v ÷ 1024 = v / 1024)%Z.
Proof. intros Hv. apply Z.quot_div_nonneg; lia. Qed.

Lemma quot_1024_bounds (v lo hi : Z) :
  (0 <= v -> (lo * 1024 <= v -> lo <= v ÷ 1024) /\
             (v < hi * 1024 -> v ÷ 1024 < hi))%Z.
Proof.
  intros Hv. rewrite quot_1024_nonneg by assumption. split; intros H.
  - apply Z.div_le_lower_bound; lia.
  - apply Z.div_lt_upper_bound; lia.
Qed.

Lemma quot_1024_ltb (v hi : Z) :
  (0 <= v -> (v ÷ 1024 <? hi) = (v <? hi * 1024))%Z.
Proof.
  intros Hv. rewrite quot_1024_nonneg by assumption.
  destruct (Z.ltb_spec v (hi * 1024)) as [H | H].
  - apply Z.ltb_lt. apply Z.div_lt_upper_bound; lia.
  - apply Z.ltb_ge. apply Z.div_le_lower_bound; lia.
Qed.

Lemma quot_1024_pos (v : Z) : (1024 <= v -> 0 <= v ÷ 1024)%Z.
Proof. intros Hv. apply Z.quot_pos; lia. Qed.

Lemma FormatInt_negative (v : Z) :
  (v < 0)%Z -> strconv.FormatInt v = ("-" ++ strconv.FormatInt (- v))%string.
Proof. destruct v as [| p | p]; intros Hv; try lia. reflexivity. Qed.

(** C7. [humanizeBytes] is the walk down the units B, K, M, G with T as
    the last one: each step compares with 1024 and divides by 1024,
    truncating.  In closed form the value is rendered as [v ÷ 1024^k] in
    the k-th unit, and everything from [1024^4] on is in T.  The seven
    sample values of the specification are rendered as it says. *)
Theorem humanizeBytes_units :
  (forall v, humanizeBytes v = humanizeSteps ["B"; "K"; "M"; "G"] v) /\
  (forall v,
      humanizeBytes v =
      if (v <? 1024)%Z then unitF v "B"
      else if (v <? 1024 ^ 2)%Z then unitF (v ÷ 1024)%Z "K"
      else if (v <? 1024 ^ 3)%Z then unitF (v ÷ 1024 ^ 2)%Z "M"
      else if (v <? 1024 ^ 4)%Z then unitF (v ÷ 1024 ^ 3)%Z "G"
      else unitF (v ÷ 1024 ^ 4)%Z "T") /\
  humanizeBytes 0 = "0B" /\
  humanizeBytes 1023 = "1023B" /\
  humanizeBytes 1024 = "1K" /\
  humanizeBytes (1024 * 1024) = "1M" /\
  humanizeBytes (1024 * 1024 * 1024) = "1G" /\
  humanizeBytes (1024 ^ 4) = "1T" /\
  humanizeBytes (1024 ^ 5) = "1024T".
Proof.
  split; [reflexivity |].
  split; [| repeat split; reflexivity].
  intros v. unfold humanizeBytes.
  destruct (Z.ltb_spec v 1024) as [H0 | H0]; [reflexivity |].
  assert (H1 : (0 <= v ÷ 1024)%Z) by (apply quot_1024_pos; assumption).
  rewrite (quot_1024_ltb v 1024) by lia.
  change (1024 * 1024)%Z with (1024 ^ 2)%Z.
  destruct (Z.ltb_spec v (1024 ^ 2)) as [H2 | H2]; [reflexivity |].
  assert (H3 : (0 <= v ÷ 1024 ÷ 1024)%Z).
  { apply quot_1024_pos. apply (quot_1024_bounds v 1024 0); lia. }
  rewrite (quot_1024_ltb (v ÷ 1024) 1024) by assumption.
  rewrite (quot_1024_ltb v (1024 * 1024)) by lia.
  change (1024 * 1024 * 1024)%Z with (1024 ^ 3)%Z.
  replace (v ÷ 1024 ÷ 1024)%Z with (v ÷ 1024 ^ 2)%Z in *
    by (rewrite Z.quot_quot by lia; reflexivity).
  destruct (Z.ltb_spec v (1024 ^ 3)) as [H4 | H4]; [reflexivity |].
  assert (H5 : (0 <= v ÷ 1024 ^ 2 ÷ 1024)%Z).
  { apply quot_1024_pos.
    replace (v ÷ 1024 ^ 2)%Z with (v ÷ 1024 ÷ 1024)%Z
      by (rewrite Z.quot_quot by lia; reflexivity).
    apply (quot_1024_bounds (v ÷ 1024) 1024 0); [lia |].
    apply (quot_1024_bounds v (1024 * 1024) 0); lia. }
  rewrite (quot_1024_ltb (v ÷ 1024 ^ 2) 1024) by assumption.
  replace (v ÷ 1024 ^ 2)%Z with (v ÷ 1024 ÷ 1024)%Z
    by (rewrite Z.quot_quot by lia; reflexivity).
  rewrite (quot_1024_ltb (v ÷ 1024) (1024 * 1024)) by lia.
  rewrite (quot_1024_ltb v (1024 * 1024 * 1024)) by lia.
  change (1024 * 1024 * 1024 * 1024)%Z with (1024 ^ 4)%Z.
  replace (v ÷ 1024 ÷ 1024 ÷ 1024)%Z with (v ÷ 1024 ^ 3)%Z
    by (rewrite !Z.quot_quot by lia; reflexivity).
  destruct (Z.ltb_spec v (1024 ^ 4)) as [H6 | H6]; [reflexivity |].
  replace (v ÷ 1024 ^ 3 ÷ 1024)%Z with (v ÷ 1024 ^ 4)%Z
    by (rewrite Z.quot_quot by lia; reflexivity).
  reflexivity.
Qed.

(** C9. [humanizeBytes] is defined on every integer, and a negative value
    is below the first threshold: it is rendered in B, as a minus sign
    followed by the digits of its magnitude.  For instance -1 gives
    ["-1B"]. *)
Theorem humanizeBytes_negative (v : Z) :
  (v < 0)%Z ->
  humanizeBytes v = (strconv.FormatInt v ++ "B")%string /\
  humanizeBytes v = ("-" ++ strconv.FormatInt (- v) ++ "B")%string.
Proof.
  intros Hv. unfold humanizeBytes.
  destruct (Z.ltb_spec v 1024) as [_ | H]; [| lia].
  unfold unitF. split; [reflexivity |].
  rewrite (FormatInt_negative v Hv). reflexivity.
Qed.

Lemma humanizeBytes_negative_witness : humanizeBytes (-1) = "-1B".
Proof. exact (proj1 (humanizeBytes_negative (-1) eq_refl)). Defined.

(** ** Strings *)

Lemma HasPrefix_StartsWith (pfx s : string) :
  strings.HasPrefix s pfx = true <-> StartsWith s pfx.
Proof.
  unfold strings.HasPrefix, StartsWith. revert s.
  induction pfx as [| a pfx IH]; intros s.
  - destruct s; simpl; split; intros _; try reflexivity; eexists; reflexivity.
  - destruct s as [| b s]; simpl.
    + split; [discriminate | intros [rest H]; discriminate].
    + destruct (ascii_dec a b) as [-> | Hne].
      * rewrite IH. split; intros [rest H]; exists rest.
        -- now rewrite H.
        -- now inversion H.
      * split; [discriminate |]. intros [rest H]. inversion H. congruence.
Qed.

Lemma existsb_HasPrefix (s : string) (pfxs : list string) :
  existsb (fun pfx => strings.HasPrefix s pfx) pfxs = true <->
  exists pfx, In pfx pfxs /\ StartsWith s pfx.
Proof.
  rewrite existsb_exists. split; intros [pfx [Hin H]]; exists pfx;
    (split; [assumption | now apply HasPrefix_StartsWith]).
Qed.

Lemma HasPrefix_ToLower (s p : string) :
  strings.HasPrefix s p = true ->
  strings.HasPrefix (strings.ToLower s) (strings.ToLower p) = true.
Proof.
  unfold strings.HasPrefix. revert s.
  induction p as [| a p IH]; intros s; simpl.
  - destruct s; reflexivity.
  - destruct s as [| b s]; simpl; [discriminate |].
    destruct (ascii_dec a b) as [-> | Hne]; [| discriminate].
    intros H. destruct (ascii_dec (strings.lowerByte b) (strings.lowerByte b));
      [now apply IH | congruence].
Qed.

Lemma Contains_ToLower (s p : string) :
  strings.Contains s p = true ->
  strings.Contains (strings.ToLower s) (strings.ToLower p) = true.
Proof.
  induction s as [| c s IH]; simpl; intros H;
    apply orb_true_iff in H; apply orb_true_iff.
  - destruct H as [H | H]; [left | discriminate].
    now apply (HasPrefix_ToLower EmptyString p).
  - destruct H as [H | H]; [left | right; now apply IH].
    now apply (HasPrefix_ToLower (String c s) p).
Qed.

(** A description the case-sensitive test of [main.go] accepts also shows
    the phrase when cases are ignored. *)
Lemma Permission_denied_described (e : error) :
  strings.Contains e "Permission denied" = true ->
  describesPermissionDenied e = true.
Proof. intros H. exact (Contains_ToLower e "Permission denied" H). Qed.

Lemma from_nil (i : nat) : strings.from i EmptyString = EmptyString.
Proof. destruct i; reflexivity. Qed.

Lemma from_length (i : nat) (w : string) :
  String.length (strings.from i w) = String.length w - i.
Proof.
  revert i. induction w as [| c w IH]; intros [| i]; simpl; auto.
Qed.

Lemma from_cons_bound (i : nat) (w : string) (c : ascii) (rest : string) :
  strings.from i w = String c rest -> i < String.length w.
Proof.
  intros H. pose proof (from_length i w) as L. rewrite H in L. simpl in L. lia.
Qed.

Lemma width_bounds (s : string) :
  utf8.DecodeRuneInString_width s <= String.length s /\
  (s <> EmptyString -> 1 <= utf8.DecodeRuneInString_width s).
Proof.
  unfold utf8.DecodeRuneInString_width.
  destruct s as [| s0 t]; [split; [simpl; lia | congruence] |].
  destruct (utf8.first s0) as [[sz [lo hi]] |]; [| simpl; split; intros; lia].
  destruct (String.length (String s0 t) <? sz); [simpl; split; intros; lia |].
  destruct t as [| s1 t1]; [simpl; split; intros; lia |].
  destruct (negb (utf8.inRange lo hi s1)); [simpl; split; intros; lia |].
  destruct (sz <=? 2); [simpl; split; intros; lia |].
  destruct t1 as [| s2 t2]; [simpl; split; intros; lia |].
  destruct (negb (utf8.isCont s2)); [simpl; split; intros; lia |].
  destruct (sz <=? 3); [simpl; split; intros; lia |].
  destruct t2 as [| s3 t3]; [simpl; split; intros; lia |].
  destruct (negb (utf8.isCont s3)); simpl; split; intros; lia.
Qed.

(** ** Regular expressions: the matcher computes [Matches] *)

Section Matcher.
Variable w : string.

Lemma Matches_bounds r i j :
  Matches w r i j -> i <= j /\ (i < j -> j <= String.length w).
Proof.
  induction 1 as [ i | c i rest E | c i rest E Hc | | | r1 r2 i m j _ IH1 _ IH2
                 | r1 r2 i j _ IH | r1 r2 i j _ IH | r i
                 | r i m j _ IH1 _ IH2 ]; try lia.
  - apply from_cons_bound in E. lia.
  - pose proof (width_bounds (strings.from i w)) as [Hle Hpos].
    rewrite from_length in Hle. apply from_cons_bound in E. lia.
Qed.

Lemma star_loop_sound r k
      (IHr : forall i k, accepts w r i k = true ->
                         exists j, Matches w r i j /\ k j = true) :
  forall fuel i,
    star_loop (accepts w r) k fuel i = true ->
    exists j, Matches w (OpStar r) i j /\ k j = true.
Proof.
  induction fuel as [| fuel IHf]; intros i H; simpl in H;
    apply orb_true_iff in H; destruct H as [H | H];
    try (exists i; split; [constructor | assumption]); try discriminate.
  apply IHr in H. destruct H as [m [Hm H]].
  apply andb_true_iff in H. destruct H as [_ H].
  apply IHf in H. destruct H as [j [Hj Hk]].
  exists j. split; [| assumption]. now apply MStarCons with m.
Qed.

Lemma accepts_sound r : forall i k,
    accepts w r i k = true -> exists j, Matches w r i j /\ k j = true.
Proof.
  induction r as [| c | | | | r1 IH1 r2 IH2 | r1 IH1 r2 IH2 | r IH];
    intros i k H; simpl in H.
  - exists i. split; [constructor | assumption].
  - destruct (strings.from i w) as [| c' rest] eqn:E; [discriminate |].
    apply andb_true_iff in H. destruct H as [Hc Hk].
    apply Ascii.eqb_eq in Hc. subst c'.
    exists (S i). split; [now apply MLiteral with rest | assumption].
  - destruct (strings.from i w) as [| c' rest] eqn:E; [discriminate |].
    apply andb_true_iff in H. destruct H as [Hc Hk].
    apply negb_true_iff in Hc. apply Ascii.eqb_neq in Hc.
    eexists. split; [| exact Hk]. rewrite <- E. now apply MAny with c' rest.
  - apply andb_true_iff in H. destruct H as [Hi Hk].
    apply Nat.eqb_eq in Hi. subst i. exists 0. split; [constructor | assumption].
  - apply andb_true_iff in H. destruct H as [Hi Hk].
    apply Nat.eqb_eq in Hi. subst i.
    exists (String.length w). split; [constructor | assumption].
  - apply IH1 in H. destruct H as [m [Hm H]].
    apply IH2 in H. destruct H as [j [Hj Hk]].
    exists j. split; [now apply MConcat with m | assumption].
  - apply orb_true_iff in H. destruct H as [H | H].
    + apply IH1 in H. destruct H as [j [Hj Hk]].
      exists j. split; [now apply MAltL | assumption].
    + apply IH2 in H. destruct H as [j [Hj Hk]].
      exists j. split; [now apply MAltR | assumption].
  - now apply star_loop_sound in H.
Qed.

Lemma star_loop_complete r k j
      (IHr : forall i j k, Matches w r i j -> k j = true ->
                           accepts w r i k = true) :
  k j = true ->
  forall i, Matches w (OpStar r) i j ->
  forall fuel, String.length w <= fuel + i ->
               star_loop (accepts w r) k fuel i = true.
Proof.
  intros Hk i H. remember (OpStar r) as R eqn:ER.
  induction H as [ | | | | | | | | r' i | r' i m j Hstep _ Hrest IHrest ];
    try discriminate; inversion ER; subst r'; intros fuel Hfuel.
  - destruct fuel; simpl; now rewrite Hk.
  - destruct (Nat.eq_dec m i) as [-> | Hne].
    + now apply IHrest.
    + pose proof (Matches_bounds _ _ _ Hstep) as [Hle Hin].
      assert (Hlt : i < m) by lia. specialize (Hin Hlt).
      destruct fuel as [| fuel]; [lia |].
      simpl. apply orb_true_iff. right.
      apply IHr with m; [assumption |].
      apply andb_true_iff. split; [now apply Nat.ltb_lt |].
      apply IHrest; [assumption | reflexivity | lia].
Qed.

Lemma accepts_complete r : forall i j k,
    Matches w r i j -> k j = true -> accepts w r i k = true.
Proof.
  induction r as [| c | | | | r1 IH1 r2 IH2 | r1 IH1 r2 IH2 | r IH];
    intros i j k H Hk; simpl.
  - inversion H; subst. assumption.
  - inversion H as [ | c' i' rest E | | | | | | | | ]; subst.
    rewrite E. rewrite Ascii.eqb_refl. assumption.
  - inversion H as [ | | c' i' rest E Hc | | | | | | | ]; subst.
    rewrite E in *. apply andb_true_iff. split; [| assumption].
    apply negb_true_iff. now apply Ascii.eqb_neq.
  - inversion H; subst. assumption.
  - inversion H; subst. rewrite Nat.eqb_refl. assumption.
  - inversion H as [ | | | | | r1' r2' i' m j' H1 H2 | | | | ]; subst.
    apply IH1 with m; [assumption |]. now apply IH2 with j.
  - apply orb_true_iff.
    inversion H; subst; [left; now apply IH1 with j | right; now apply IH2 with j].
  - apply star_loop_complete with j; auto. lia.
Qed.

Lemma MatchString_Matches re :
  MatchString re w = true <->
  exists i j, i <= String.length w /\ Matches w re i j.
Proof.
  unfold MatchString. rewrite existsb_exists. split.
  - intros [i [Hin H]]. apply in_seq in Hin.
    apply accepts_sound in H. destruct H as [j [Hj _]].
    exists i, j. split; [lia | assumption].
  - intros [i [j [Hi H]]]. exists i. split; [apply in_seq; lia |].
    now apply accepts_complete with j.
Qed.

Lemma endsAtEndText_end re i j :
  endsAtEndText re = true -> Matches w re i j -> j = String.length w.
Proof.
  revert i. induction re as [| | | | | r1 _ r2 IH2 | |]; intros i He H;
    simpl in He; try discriminate.
  - now inversion H.
  - inversion H; subst. eapply IH2; eassumption.
Qed.

Lemma anchored_span re i j :
  anchored re = true -> Matches w re i j -> i = 0 /\ j = String.length w.
Proof.
  destruct re as [| | | | | r1 r2 | |]; simpl; try discriminate.
  destruct r1; try discriminate. intros He H.
  inversion H as [ | | | | | r1' r2' i' m j' H1 H2 | | | | ]; subst.
  inversion H1; subst. split; [reflexivity |].
  eapply endsAtEndText_end; eassumption.
Qed.

(** For a pattern written [^...$], a search hit is a match of the whole
    string. *)
Lemma anchored_MatchString re :
  anchored re = true -> (MatchString re w = true <-> FullMatch re w).
Proof.
  intros Ha. rewrite MatchString_Matches. unfold FullMatch. split.
  - intros [i [j [_ H]]].
    destruct (anchored_span re i j Ha H) as [-> ->]. assumption.
  - intros H. exists 0, (String.length w). split; [lia | assumption].
Qed.

End Matcher.

(** ** The match rules *)

Lemma eligibleFilePatterns_anchored :
  forall patt, In patt eligibleFilePatterns -> anchored patt = true.
Proof. apply forallb_forall. reflexivity. Qed.

Lemma existsb_MatchString (n : string) :
  existsb (fun patt => MatchString patt n) eligibleFilePatterns = true <->
  exists patt, In patt eligibleFilePatterns /\ FullMatch patt n.
Proof.
  rewrite existsb_exists. split; intros [patt [Hin H]]; exists patt;
    (split; [assumption |]);
    now apply (anchored_MatchString n patt (eligibleFilePatterns_anchored patt Hin)).
Qed.

(** C1. A directory is eligible exactly when its name is the literal
    ["consul-test"] or starts with one of the directory prefixes; a file
    is eligible exactly when its name starts with one of the file prefixes
    or is matched, from its first byte to its last, by one of the file
    patterns.  Each kind of entry is decided by its own rules only. *)
Theorem shouldDelete_rules (n : string) :
  (shouldDelete true n = true <->
   n = "consul-test" \/
   exists pfx, In pfx eligiblePrefixes /\ StartsWith n pfx) /\
  (shouldDelete false n = true <->
   (exists pfx, In pfx eligibleFilePrefixes /\ StartsWith n pfx) \/
   (exists patt, In patt eligibleFilePatterns /\ FullMatch patt n)).
Proof.
  unfold shouldDelete. split.
  - destruct (String.eqb_spec n "consul-test") as [E | E].
    + split; [intros _; now left | reflexivity].
    + rewrite existsb_HasPrefix. split; [now right | intros [H | H]];
        [contradiction | assumption].
  - rewrite <- existsb_HasPrefix, <- existsb_MatchString.
    destruct (existsb (fun pfx => strings.HasPrefix n pfx) eligibleFilePrefixes).
    + split; [intros _; now left | reflexivity].
    + split; [now right | intros [H | H]]; [discriminate | assumption].
Qed.

(** C10. With the rules of [main.go] the test for ["consul-test"] decides
    nothing: that name starts with the listed prefix ["consul"], so the
    rule without the test accepts the same entries. *)
Theorem consul_test_exception_redundant :
  In "consul" eligiblePrefixes /\
  StartsWith "consul-test" "consul" /\
  forall (isDir : bool) (n : string),
    shouldDelete_prefixesOnly isDir n = shouldDelete isDir n.
Proof.
  split; [simpl; tauto |].
  split; [exists "-test"; reflexivity |].
  intros [|] n; unfold shouldDelete_prefixesOnly, shouldDelete; [| reflexivity].
  destruct (String.eqb_spec n "consul-test") as [-> | _]; reflexivity.
Qed.

(** ** The scan *)

Lemma collect_loop (tmpRoot : string) (files : list FileInfo) :
  forall roots,
    fold_left
      (fun roots st =>
         if shouldDelete (IsDir st) (Name st)
         then roots ++ [filepath.Join tmpRoot (Name st)]
         else roots)
      files roots =
    roots ++ map (fun st => filepath.Join tmpRoot (Name st)) (filter eligible files).
Proof.
  induction files as [| st files IH]; intros roots; simpl.
  - now rewrite app_nil_r.
  - rewrite IH. unfold eligible at 2.
    destruct (shouldDelete (IsDir st) (Name st)); simpl; [| reflexivity].
    now rewrite <- app_assoc.
Qed.

(** C2. Whatever the listing of the root is, the candidates are the
    eligible entries of the listing, in its order, each as the root
    joined with the entry's name; a path is a candidate only if it comes
    from an eligible entry.  For the listing of the scenario the
    candidates are ["go-build-123"], ["snapshot.bin"] and
    ["gopls.abc-heap.pb.gz"] under the root, and ["keepme"] is not
    eligible. *)
Theorem scanForToplevelStuff_candidates :
  (forall (os : OS) (tmpRoot : string) (w w' : World) (files : list FileInfo),
      os_ReadDir tmpRoot w = ((files, None), w') ->
      result (scanForToplevelStuff tmpRoot w) =
      (map (fun st => filepath.Join tmpRoot (Name st)) (filter eligible files),
       None) /\
      forall p,
        In p (fst (result (scanForToplevelStuff tmpRoot w))) <->
        exists st, In st files /\ eligible st = true /\
                   p = filepath.Join tmpRoot (Name st)) /\
  filter eligible scenarioListing =
    [dir "go-build-123"; file "snapshot.bin"; file "gopls.abc-heap.pb.gz"] /\
  eligible (dir "keepme") = false /\
  (forall duOf rmOf tmpRoot w,
      result (@scanForToplevelStuff (scriptedOS scenarioListing duOf rmOf)
                                    tmpRoot w) =
      (map (filepath.Join tmpRoot)
           ["go-build-123"; "snapshot.bin"; "gopls.abc-heap.pb.gz"], None)) /\
  (forall duOf rmOf w,
      result (@scanForToplevelStuff (scriptedOS scenarioListing duOf rmOf)
                                    "/tmp" w) =
      (["/tmp/go-build-123"; "/tmp/snapshot.bin"; "/tmp/gopls.abc-heap.pb.gz"],
       None)).
Proof.
  assert (Hscan : forall (os : OS) tmpRoot w w' files,
             os_ReadDir tmpRoot w = ((files, None), w') ->
             result (scanForToplevelStuff tmpRoot w) =
             (map (fun st => filepath.Join tmpRoot (Name st))
                  (filter eligible files), None)).
  { intros os tmpRoot w w' files H.
    unfold scanForToplevelStuff, bind, ReadDir, result. rewrite H. simpl.
    now rewrite collect_loop. }
  repeat split; try reflexivity.
  - eapply Hscan; eassumption.
  - rewrite (Hscan os tmpRoot w w' files H). simpl. rewrite in_map_iff.
    intros [st [Hp Hin]]. apply filter_In in Hin. destruct Hin as [Hin He].
    exists st. auto.
  - rewrite (Hscan os tmpRoot w w' files H). simpl. rewrite in_map_iff.
    intros [st [Hin [He Hp]]]. exists st. split; [auto |].
    apply filter_In. auto.
Qed.

Lemma scanForToplevelStuff_candidates_witness :
  result (@scanForToplevelStuff (scriptedOS scenarioListing du4096 rmOk)
                                "/tmp" []) =
  (["/tmp/go-build-123"; "/tmp/snapshot.bin"; "/tmp/gopls.abc-heap.pb.gz"],
   None).
Proof.
  exact (proj1 (proj1 scanForToplevelStuff_candidates
                      (scriptedOS scenarioListing du4096 rmOk)
                      "/tmp" [] [] scenarioListing eq_refl)).
Defined.

(** ** Events of the phases of a run *)

Section Events.
Context {os : OS}.

Lemma emitsOnly_ret {A} P (a : A) : emitsOnly P (ret a).
Proof. intros w. reflexivity. Qed.

Lemma emitsOnly_bind {A B} P (c : M A) (k : A -> M B) :
  emitsOnly P c -> (forall a, emitsOnly P (k a)) -> emitsOnly P (bind c k).
Proof.
  intros Hc Hk w. unfold bind. specialize (Hc w).
  destruct (c w) as [[a w1] ev1]. specialize (Hk a w1).
  destruct (k a w1) as [[b w2] ev2]. unfold events in *. simpl in *.
  rewrite forallb_app. now rewrite Hc, Hk.
Qed.

Lemma emitsOnly_Printf P text : P (Stdout text) = true -> emitsOnly P (Printf text).
Proof. intros H w. unfold Printf, events. simpl. now rewrite H. Qed.

Lemma emitsOnly_du P d : P (DuCall d) = true -> emitsOnly P (du d).
Proof.
  intros H w. unfold du, events. destruct (exec_du d w). simpl. now rewrite H.
Qed.

Lemma emitsOnly_RemoveAll P d :
  P (RemoveAllCall d) = true -> emitsOnly P (RemoveAll d).
Proof.
  intros H w. unfold RemoveAll, events. destruct (os_RemoveAll d w). simpl.
  now rewrite H.
Qed.

Lemma emitsOnly_ReadDir P d :
  P (ReadDirCall d) = true -> emitsOnly P (ReadDir d).
Proof.
  intros H w. unfold ReadDir, events. destruct (os_ReadDir d w). simpl.
  now rewrite H.
Qed.

Lemma scanForToplevelStuff_emits tmpRoot :
  emitsOnly notRemoveAll (scanForToplevelStuff tmpRoot).
Proof.
  unfold scanForToplevelStuff. apply emitsOnly_bind.
  - now apply emitsOnly_ReadDir.
  - intros [files [e |]]; apply emitsOnly_ret.
Qed.

Lemma estimateTreeSize_emits d : emitsOnly notRemoveAll (estimateTreeSize d).
Proof.
  unfold estimateTreeSize. destruct (String.eqb d ""); [apply emitsOnly_ret |].
  apply emitsOnly_bind; [now apply emitsOnly_du |].
  intros cmd. destruct (runErr cmd); [apply emitsOnly_ret |].
  destruct (duRE_FindStringSubmatch (stdout cmd)) as [[| m0 [| m1 [| m2 m]]] |];
    try apply emitsOnly_ret.
  destruct (strconv.ParseInt m1); apply emitsOnly_ret.
Qed.

Lemma estimateLoop_emits dirs :
  forall totalBytes, emitsOnly notRemoveAll (estimateLoop dirs totalBytes).
Proof.
  induction dirs as [| d dirs IH]; intros totalBytes; simpl.
  - apply emitsOnly_ret.
  - apply emitsOnly_bind; [apply estimateTreeSize_emits |].
    intros [sz [e |]]; [| apply IH].
    destruct (strings.Contains e "Permission denied"); [| apply emitsOnly_ret].
    apply emitsOnly_bind; [now apply emitsOnly_Printf | intros _; apply IH].
Qed.

Lemma deleteLoop_emits dryRun dirs : emitsOnly notDu (deleteLoop dryRun dirs).
Proof.
  induction dirs as [| d dirs IH]; simpl.
  - apply emitsOnly_ret.
  - destruct dryRun.
    + apply emitsOnly_bind; [now apply emitsOnly_Printf | intros _; apply IH].
    + apply emitsOnly_bind; [now apply emitsOnly_Printf | intros _].
      apply emitsOnly_bind; [now apply emitsOnly_RemoveAll |].
      intros [e |]; [| apply IH].
      destruct (strings.Contains e "Permission denied"); [| apply emitsOnly_ret].
      apply emitsOnly_bind; [now apply emitsOnly_Printf | intros _; apply IH].
Qed.

Lemma deleteLoop_dry_emits dirs : emitsOnly notRemoveAll (deleteLoop true dirs).
Proof.
  induction dirs as [| d dirs IH]; simpl.
  - apply emitsOnly_ret.
  - apply emitsOnly_bind; [now apply emitsOnly_Printf | intros _; apply IH].
Qed.

Lemma deleteLoop_dry_world dirs w : world (deleteLoop true dirs w) = w.
Proof.
  revert w. induction dirs as [| d dirs IH]; intros w; [reflexivity |].
  simpl. unfold bind, Printf. specialize (IH w).
  destruct (deleteLoop true dirs w) as [[r w'] ev]. exact IH.
Qed.

Lemma deleteLoop_dry_result dirs w : result (deleteLoop true dirs w) = None.
Proof.
  revert w. induction dirs as [| d dirs IH]; intros w; [reflexivity |].
  simpl. unfold bind, Printf. specialize (IH w).
  destruct (deleteLoop true dirs w) as [[r w'] ev]. exact IH.
Qed.

(** [run] with its binds expanded: the outcome of each phase decides
    whether the next one starts. *)
Lemma run_phases tmpRoot dryRun w :
  String.eqb tmpRoot "" = false ->
  run tmpRoot dryRun w =
  let '(dirs, err, w1, ev1) := scanForToplevelStuff tmpRoot w in
  match err with
  | Some e => (Some e, w1, ev1 ++ [])
  | None =>
      let '(totalBytes, err, w2, ev2) := estimateLoop dirs 0%Z w1 in
      match err with
      | Some e => (Some e, w2, ev1 ++ ev2 ++ [])
      | None =>
          let '(err, w3, ev3) := deleteLoop dryRun dirs w2 in
          match err with
          | Some e => (Some e, w3, ev1 ++ ev2 ++ ev3 ++ [])
          | None =>
              (None, w3,
               ev1 ++ ev2 ++ ev3 ++
               [Stdout (summary totalBytes (List.length dirs))])
          end
      end
  end.
Proof.
  intros Hroot. unfold run. rewrite Hroot.
  unfold bind at 1.
  destruct (scanForToplevelStuff tmpRoot w) as [[[dirs [e |]] w1] ev1];
    [reflexivity |].
  unfold bind at 1.
  destruct (estimateLoop dirs 0%Z w1) as [[[totalBytes [e |]] w2] ev2];
    [reflexivity |].
  unfold bind at 1.
  destruct (deleteLoop dryRun dirs w2) as [[[e |] w3] ev3]; reflexivity.
Qed.

End Events.

(** ** Size estimation *)

(** C8. For the empty path [estimateTreeSize] returns zero bytes and the
    error "missing directory name"; [du] is not run, and the world is
    left as it was. *)
Theorem estimateTreeSize_empty_path (os : OS) (w : World) :
  estimateTreeSize "" w = (0%Z, Some "missing directory name", w, []).
Proof. reflexivity. Qed.

(** Every failing return of [estimateTreeSize] carries zero bytes. *)
Lemma estimateTreeSize_error_zero {os : OS} d w sz e :
  result (estimateTreeSize d w) = (sz, Some e) -> sz = 0%Z.
Proof.
  unfold estimateTreeSize, result.
  destruct (String.eqb d ""); [simpl; congruence |].
  unfold bind, du. destruct (exec_du d w) as [cmd w1].
  destruct (runErr cmd); [simpl; congruence |].
  destruct (duRE_FindStringSubmatch (stdout cmd)) as [[| m0 [| m1 [| m2 m]]] |];
    try (simpl; congruence).
  destruct (strconv.ParseInt m1); simpl; congruence.
Qed.

(** ** Order of the phases *)

Lemma after_first_phase (A B before after : list event) (x : event) :
  A ++ B = before ++ x :: after ->
  forallb notRemoveAll A = true -> notRemoveAll x = false ->
  exists l, B = l ++ x :: after.
Proof.
  intros E HA Hx. apply app_eq_app in E.
  destruct E as [l [[E1 E2] | [E1 E2]]].
  - destruct l as [| y l].
    + exists []. simpl in E2. now rewrite <- E2.
    + simpl in E2. inversion E2; subst.
      rewrite forallb_app in HA. simpl in HA. rewrite Hx in HA.
      rewrite andb_false_r in HA. discriminate.
  - exists l. assumption.
Qed.

Lemma run_two_phases {os : OS} tmpRoot dryRun w :
  exists A B,
    events (run tmpRoot dryRun w) = A ++ B /\
    forallb notRemoveAll A = true /\ forallb notDu B = true.
Proof.
  destruct (String.eqb tmpRoot "") eqn:Hroot.
  - exists [], []. unfold run. rewrite Hroot. repeat split.
  - rewrite (run_phases tmpRoot dryRun w Hroot).
    pose proof (scanForToplevelStuff_emits tmpRoot w) as H1.
    destruct (scanForToplevelStuff tmpRoot w) as [[[dirs [e |]] w1] ev1];
      unfold events in *; simpl in H1.
    + exists ev1, []. simpl. auto.
    + pose proof (estimateLoop_emits dirs 0%Z w1) as H2.
      destruct (estimateLoop dirs 0%Z w1) as [[[totalBytes [e |]] w2] ev2];
        unfold events in *; simpl in H2.
      * exists (ev1 ++ ev2), []. simpl.
        rewrite forallb_app, H1, H2, !app_nil_r. auto.
      * pose proof (deleteLoop_emits dryRun dirs w2) as H3.
        destruct (deleteLoop dryRun dirs w2) as [[[e |] w3] ev3];
          unfold events in *; simpl in H3.
        -- exists (ev1 ++ ev2), ev3. simpl.
           rewrite forallb_app, H1, H2, H3, app_nil_r, app_assoc. auto.
        -- exists (ev1 ++ ev2),
                  (ev3 ++ [Stdout (summary totalBytes (List.length dirs))]).
           simpl. rewrite !forallb_app, H1, H2, H3, app_assoc. auto.
Qed.

(** C4. In the events of a run, nothing that follows a call of
    [os.RemoveAll] is a call of [du]: every size estimation the run makes
    comes before its first deletion. *)
Theorem estimation_before_deletion (os : OS) tmpRoot dryRun w before p after :
  events (run tmpRoot dryRun w) = before ++ RemoveAllCall p :: after ->
  forall q, ~ In (DuCall q) after.
Proof.
  intros E q Hin.
  destruct (run_two_phases tmpRoot dryRun w) as [A [B [HAB [HA HB]]]].
  rewrite HAB in E.
  destruct (after_first_phase A B before after (RemoveAllCall p) E HA eq_refl)
    as [l HBl].
  subst B. rewrite forallb_app in HB. apply andb_true_iff in HB.
  destruct HB as [_ HB]. simpl in HB. rewrite forallb_forall in HB.
  specialize (HB (DuCall q) Hin). discriminate.
Qed.

Lemma estimation_before_deletion_witness :
  ~ In (DuCall "/tmp/snapshot.bin")
       (skipn 6 (events (@run (scriptedOS scenarioListing du4096 rmOk)
                              "/tmp" false []))).
Proof.
  exact (estimation_before_deletion
           (scriptedOS scenarioListing du4096 rmOk) "/tmp" false []
           (firstn 5 (events (@run (scriptedOS scenarioListing du4096 rmOk)
                                   "/tmp" false [])))
           "/tmp/go-build-123"
           (skipn 6 (events (@run (scriptedOS scenarioListing du4096 rmOk)
                                  "/tmp" false [])))
           eq_refl "/tmp/snapshot.bin").
Defined.

(** ** Dry runs *)

Lemma run_dry_emits {os : OS} tmpRoot w :
  forallb notRemoveAll (events (run tmpRoot true w)) = true.
Proof.
  destruct (String.eqb tmpRoot "") eqn:Hroot.
  - unfold run. rewrite Hroot. reflexivity.
  - rewrite (run_phases tmpRoot true w Hroot).
    pose proof (scanForToplevelStuff_emits tmpRoot w) as H1.
    destruct (scanForToplevelStuff tmpRoot w) as [[[dirs [e |]] w1] ev1];
      unfold events in *; simpl in H1; simpl.
    + now rewrite app_nil_r.
    + pose proof (estimateLoop_emits dirs 0%Z w1) as H2.
      destruct (estimateLoop dirs 0%Z w1) as [[[totalBytes [e |]] w2] ev2];
        unfold events in *; simpl in H2; simpl.
      * now rewrite !forallb_app, H1, H2.
      * pose proof (deleteLoop_dry_emits dirs w2) as H3.
        destruct (deleteLoop true dirs w2) as [[[e |] w3] ev3];
          unfold events in *; simpl in H3; simpl;
          now rewrite !forallb_app, H1, H2, H3.
Qed.

(** C5. A dry run calls [os.RemoveAll] for no path.  Its summary shows
    the byte total and the candidate count that the scan and the
    estimation over the same world produce, and so does the summary of a
    live run: the live run prints the same line when its deletions go
    through, and no summary at all when one of them is fatal. *)
Theorem dry_run_same_summary (os : OS) tmpRoot w :
  forallb notRemoveAll (events (run tmpRoot true w)) = true /\
  forall dirs w1 ev1 totalBytes w2 ev2,
    String.eqb tmpRoot "" = false ->
    scanForToplevelStuff tmpRoot w = (dirs, None, w1, ev1) ->
    estimateLoop dirs 0%Z w1 = (totalBytes, None, w2, ev2) ->
    (exists lines,
        run tmpRoot true w =
        (None, w2,
         ev1 ++ ev2 ++ lines ++ [Stdout (summary totalBytes (List.length dirs))])) /\
    (forall w3 ev3,
        deleteLoop false dirs w2 = (None, w3, ev3) ->
        run tmpRoot false w =
        (None, w3,
         ev1 ++ ev2 ++ ev3 ++ [Stdout (summary totalBytes (List.length dirs))])) /\
    (forall e w3 ev3,
        deleteLoop false dirs w2 = (Some e, w3, ev3) ->
        run tmpRoot false w = (Some e, w3, ev1 ++ ev2 ++ ev3)).
Proof.
  split; [apply run_dry_emits |].
  intros dirs w1 ev1 totalBytes w2 ev2 Hroot Hscan Hest.
  repeat split.
  - pose proof (deleteLoop_dry_world dirs w2) as Hw.
    pose proof (deleteLoop_dry_result dirs w2) as Hr.
    rewrite (run_phases tmpRoot true w Hroot), Hscan, Hest.
    destruct (deleteLoop true dirs w2) as [[r w3] lines].
    unfold world, result in *. simpl in *. subst r w3.
    exists lines. reflexivity.
  - intros w3 ev3 Hdel.
    now rewrite (run_phases tmpRoot false w Hroot), Hscan, Hest, Hdel.
  - intros e w3 ev3 Hdel.
    rewrite (run_phases tmpRoot false w Hroot), Hscan, Hest, Hdel.
    now rewrite app_nil_r.
Qed.

Lemma dry_run_same_summary_witness :
  exists lines,
    @run (scriptedOS scenarioListing du4096 rmOk) "/tmp" true [] =
    (None, [],
     [ReadDirCall "/tmp"] ++
     [DuCall "/tmp/go-build-123"; DuCall "/tmp/snapshot.bin";
      DuCall "/tmp/gopls.abc-heap.pb.gz"] ++
     lines ++ [Stdout (summary 12288 3)]).
Proof.
  exact (proj1 (proj2 (dry_run_same_summary
                         (scriptedOS scenarioListing du4096 rmOk) "/tmp" [])
                      ["/tmp/go-build-123"; "/tmp/snapshot.bin";
                       "/tmp/gopls.abc-heap.pb.gz"]
                      [] [ReadDirCall "/tmp"] 12288%Z []
                      [DuCall "/tmp/go-build-123"; DuCall "/tmp/snapshot.bin";
                       DuCall "/tmp/gopls.abc-heap.pb.gz"]
                      eq_refl eq_refl eq_refl)).
Defined.

(** ** Fatal deletion errors *)

Lemma deleteLoop_stops {os : OS} (d : string) (post : list string)
      (e : error) (w4 : World) :
  strings.Contains e "Permission denied" = false ->
  forall pre w2 w3 ev3,
    deleteLoop false pre w2 = (None, w3, ev3) ->
    os_RemoveAll d w3 = (Some e, w4) ->
    deleteLoop false (pre ++ d :: post) w2 =
    (Some e, w4, ev3 ++ [Stdout ("deleting " ++ d ++ LF); RemoveAllCall d]).
Proof.
  intros He. induction pre as [| p pre IH]; intros w2 w3 ev3 Hpre Hrm.
  - simpl in Hpre. unfold ret in Hpre. inversion Hpre; subst.
    simpl. unfold bind, Printf, RemoveAll. rewrite Hrm, He. reflexivity.
  - simpl in Hpre |- *. unfold bind, Printf, RemoveAll in Hpre |- *.
    destruct (os_RemoveAll p w2) as [[e' |] w'].
    + destruct (strings.Contains e' "Permission denied"); [| discriminate].
      destruct (deleteLoop false pre w') as [[r w''] ev''] eqn:E.
      inversion Hpre; subst.
      rewrite (IH w' w3 ev'' E Hrm). simpl. reflexivity.
    + destruct (deleteLoop false pre w') as [[r w''] ev''] eqn:E.
      inversion Hpre; subst.
      rewrite (IH w' w3 ev'' E Hrm). reflexivity.
Qed.

(** C6. When the removal of a candidate fails and the description of the
    error does not show a permission-denied condition, the run returns
    that error at once: its last event is the failed call, so no
    candidate after it is visited and no summary is printed, and the
    world is the one the failed call left, with the removals made before
    it still in effect. *)
Theorem fatal_deletion_aborts (os : OS) tmpRoot w pre d post w1 ev1
        totalBytes w2 ev2 w3 ev3 e w4 :
  String.eqb tmpRoot "" = false ->
  scanForToplevelStuff tmpRoot w = (pre ++ d :: post, None, w1, ev1) ->
  estimateLoop (pre ++ d :: post) 0%Z w1 = (totalBytes, None, w2, ev2) ->
  deleteLoop false pre w2 = (None, w3, ev3) ->
  os_RemoveAll d w3 = (Some e, w4) ->
  describesPermissionDenied e = false ->
  run tmpRoot false w =
  (Some e, w4,
   ev1 ++ ev2 ++ ev3 ++ [Stdout ("deleting " ++ d ++ LF); RemoveAllCall d]).
Proof.
  intros Hroot Hscan Hest Hpre Hrm He.
  assert (Hcs : strings.Contains e "Permission denied" = false).
  { destruct (strings.Contains e "Permission denied") eqn:C; [| reflexivity].
    apply Permission_denied_described in C. congruence. }
  rewrite (run_phases tmpRoot false w Hroot), Hscan, Hest.
  rewrite (deleteLoop_stops d post e w4 Hcs pre w2 w3 ev3 Hpre Hrm).
  now rewrite app_nil_r.
Qed.

Lemma fatal_deletion_aborts_witness :
  @run (scriptedOS scenarioListing du4096
          (rmFailsOn "/tmp/snapshot.bin"
                     "unlinkat /tmp/snapshot.bin: device or resource busy"))
       "/tmp" false [] =
  (Some "unlinkat /tmp/snapshot.bin: device or resource busy",
   ["/tmp/go-build-123"],
   [ReadDirCall "/tmp"] ++
   [DuCall "/tmp/go-build-123"; DuCall "/tmp/snapshot.bin";
    DuCall "/tmp/gopls.abc-heap.pb.gz"] ++
   [Stdout ("deleting /tmp/go-build-123" ++ LF);
    RemoveAllCall "/tmp/go-build-123"] ++
   [Stdout ("deleting /tmp/snapshot.bin" ++ LF);
    RemoveAllCall "/tmp/snapshot.bin"]).
Proof.
  exact (fatal_deletion_aborts
           (scriptedOS scenarioListing du4096
              (rmFailsOn "/tmp/snapshot.bin"
                         "unlinkat /tmp/snapshot.bin: device or resource busy"))
           "/tmp" [] ["/tmp/go-build-123"] "/tmp/snapshot.bin"
           ["/tmp/gopls.abc-heap.pb.gz"] [] [ReadDirCall "/tmp"] 12288%Z []
           [DuCall "/tmp/go-build-123"; DuCall "/tmp/snapshot.bin";
            DuCall "/tmp/gopls.abc-heap.pb.gz"]
           ["/tmp/go-build-123"]
           [Stdout ("deleting /tmp/go-build-123" ++ LF);
            RemoveAllCall "/tmp/go-build-123"]
           "unlinkat /tmp/snapshot.bin: device or resource busy"
           ["/tmp/go-build-123"]
           eq_refl eq_refl eq_refl eq_refl eq_refl eq_refl).
Defined.

(** ** Estimation errors *)

Lemma wrap64_range (z : Z) :
  (strconv.MinInt64 <= wrap64 z <= strconv.MaxInt64)%Z.
Proof.
  unfold wrap64, strconv.MinInt64, strconv.MaxInt64.
  pose proof (Z.mod_pos_bound (z + 2 ^ 63) (2 ^ 64) eq_refl). lia.
Qed.

(** A candidate that contributes zero leaves the running total alone. *)
Lemma add64_zero (totalBytes : Z) :
  (strconv.MinInt64 <= totalBytes <= strconv.MaxInt64)%Z ->
  add64 totalBytes 0 = totalBytes.
Proof.
  unfold add64, wrap64, strconv.MinInt64, strconv.MaxInt64. intros H.
  rewrite Z.add_0_r. rewrite Z.mod_small by lia. lia.
Qed.

Section EstimationErrors.
Context {os : OS}.
Variables (d : string) (rest : list string) (totalBytes : Z).
Variables (w w1 : World) (ev1 : list event) (sz : Z) (e : error).
Hypothesis Hfail : estimateTreeSize d w = (sz, Some e, w1, ev1).

(** [main.go]: an error whose text contains "Permission denied", spelled
    so, is reported and the loop goes on with the next candidate. *)
Lemma estimateLoop_skips :
  strings.Contains e "Permission denied" = true ->
  sz = 0%Z /\
  estimateLoop (d :: rest) totalBytes w =
  let '(r, w2, ev2) := estimateLoop rest (add64 totalBytes 0) w1 in
  (r, w2,
   ev1 ++ Stdout ("ERR: skipping " ++ d ++ " for estimation: " ++ e ++ LF) :: ev2).
Proof.
  intros He.
  assert (Hsz : sz = 0%Z).
  { apply (estimateTreeSize_error_zero d w sz e). now rewrite Hfail. }
  split; [assumption |]. subst sz.
  simpl. unfold bind at 1. rewrite Hfail, He. unfold bind, Printf.
  destruct (estimateLoop rest (add64 totalBytes 0) w1) as [[r w2] ev2].
  reflexivity.
Qed.

(** [main.go]: any other error ends the loop. *)
Lemma estimateLoop_fails :
  strings.Contains e "Permission denied" = false ->
  estimateLoop (d :: rest) totalBytes w = (totalBytes, Some e, w1, ev1 ++ []).
Proof.
  intros He. simpl. unfold bind at 1. now rewrite Hfail, He.
Qed.

(** The later revision: the phrase is looked for in the lower-cased
    text, and the loop goes on whenever it is found. *)
Lemma Revised_estimateLoop_skips :
  describesPermissionDenied e = true ->
  sz = 0%Z /\
  Revised.estimateLoop (d :: rest) totalBytes w =
  let '(r, w2, ev2) := Revised.estimateLoop rest (add64 totalBytes 0) w1 in
  (r, w2,
   ev1 ++ Stderr ("WARN: " ++ ("skipping " ++ d ++ " for estimation: " ++ e) ++ LF)
       :: ev2).
Proof.
  intros He.
  assert (Hsz : sz = 0%Z).
  { apply (estimateTreeSize_error_zero d w sz e). now rewrite Hfail. }
  split; [assumption |]. subst sz.
  simpl. unfold bind at 1. rewrite Hfail.
  unfold Revised.isPermDenied. unfold describesPermissionDenied in He.
  rewrite He. unfold bind, Revised.logWarn, Eprintf.
  destruct (Revised.estimateLoop rest (add64 totalBytes 0) w1) as [[r w2] ev2].
  reflexivity.
Qed.

Lemma Revised_estimateLoop_fails :
  describesPermissionDenied e = false ->
  Revised.estimateLoop (d :: rest) totalBytes w =
  (totalBytes, Some ("could not estimate tree size of " ++ d ++ ": " ++ e)%string,
   w1, ev1 ++ []).
Proof.
  intros He. simpl. unfold bind at 1. rewrite Hfail.
  unfold Revised.isPermDenied. unfold describesPermissionDenied in He.
  now rewrite He.
Qed.

End EstimationErrors.

(** C3, as [main.go] stands.  When [du] cannot be started for want of
    permission, [exec] describes the failure in lower case.  The
    description shows a permission-denied condition, yet [run] of
    [main.go], which looks for "Permission denied" with a capital P,
    returns the error: the candidate after it is never measured and no
    summary is printed.  On the same input [run] of the later revision
    warns, counts zero bytes for the candidate and completes. *)
Theorem run_fatal_on_lowercase_permission_denied :
  let os := scriptedOS scenarioListing (duNotExecutable "/tmp/snapshot.bin") rmOk in
  let e := "fork/exec /usr/bin/du: permission denied: " in
  describesPermissionDenied e = true /\
  strings.Contains e "Permission denied" = false /\
  @run os "/tmp" true [] =
    (Some e, [],
     [ReadDirCall "/tmp"; DuCall "/tmp/go-build-123"; DuCall "/tmp/snapshot.bin"]) /\
  @Revised.run os "/tmp" true [] =
    (None, [],
     [ReadDirCall "/tmp"; DuCall "/tmp/go-build-123"; DuCall "/tmp/snapshot.bin";
      Stderr ("WARN: skipping /tmp/snapshot.bin for estimation: " ++ e ++ LF);
      DuCall "/tmp/gopls.abc-heap.pb.gz";
      Stdout ("INFO: DRY-RUN: deleting /tmp/go-build-123" ++ LF);
      Stdout ("INFO: DRY-RUN: deleting /tmp/snapshot.bin" ++ LF);
      Stdout ("INFO: DRY-RUN: deleting /tmp/gopls.abc-heap.pb.gz" ++ LF);
      Stdout ("INFO: estimated savings ~8K from 3 directories" ++ LF)]).
Proof. repeat split. Qed.

(** * Further statements *)

(** ** The formatter never overstates *)

Lemma humanizeBytes_by_unit (v : Z) :
  humanizeBytes v =
  unitF (v ÷ 1024 ^ Z.of_nat (fst (unitOf v)))%Z (snd (unitOf v)).
Proof.
  unfold humanizeBytes, unitOf.
  destruct (Z.ltb_spec v 1024) as [H0 | H0];
    [simpl; now rewrite Z.quot_1_r |].
  assert (H1 : (0 <= v ÷ 1024)%Z) by (apply quot_1024_pos; assumption).
  rewrite (quot_1024_ltb v 1024) by lia.
  change (1024 * 1024)%Z with (1024 ^ 2)%Z.
  destruct (Z.ltb_spec v (1024 ^ 2)) as [H2 | H2]; [reflexivity |].
  assert (H3 : (0 <= v ÷ 1024 ÷ 1024)%Z).
  { apply quot_1024_pos. apply (quot_1024_bounds v 1024 0); lia. }
  rewrite (quot_1024_ltb (v ÷ 1024) 1024) by assumption.
  rewrite (quot_1024_ltb v (1024 * 1024)) by lia.
  change (1024 * 1024 * 1024)%Z with (1024 ^ 3)%Z.
  assert (E2 : (v ÷ 1024 ÷ 1024 = v ÷ 1024 ^ 2)%Z)
    by (rewrite Z.quot_quot by lia; reflexivity).
  destruct (Z.ltb_spec v (1024 ^ 3)) as [H4 | H4];
    [simpl; now rewrite E2 |].
  assert (H5 : (0 <= v ÷ 1024 ÷ 1024 ÷ 1024)%Z).
  { apply quot_1024_pos. apply (quot_1024_bounds (v ÷ 1024) 1024 0); [lia |].
    apply (quot_1024_bounds v (1024 * 1024) 0); lia. }
  rewrite (quot_1024_ltb (v ÷ 1024 ÷ 1024) 1024) by assumption.
  rewrite (quot_1024_ltb (v ÷ 1024) (1024 * 1024)) by lia.
  rewrite (quot_1024_ltb v (1024 * 1024 * 1024)) by lia.
  change (1024 * 1024 * 1024 * 1024)%Z with (1024 ^ 4)%Z.
  assert (E3 : (v ÷ 1024 ÷ 1024 ÷ 1024 = v ÷ 1024 ^ 3)%Z)
    by (rewrite !Z.quot_quot by lia; reflexivity).
  assert (E4 : (v ÷ 1024 ÷ 1024 ÷ 1024 ÷ 1024 = v ÷ 1024 ^ 4)%Z)
    by (rewrite !Z.quot_quot by lia; reflexivity).
  destruct (Z.ltb_spec v (1024 ^ 4)) as [H6 | H6]; simpl;
    [now rewrite E3 | now rewrite E4].
Qed.

(** X1. For a byte count that is not negative, the number shown times
    its unit is at most the count and misses it by less than one unit;
    the number is below 1024 in every unit but T, and below 2^23 in T for
    every [int64]. *)
Theorem humanizeBytes_truncates (v : Z) :
  (0 <= v)%Z ->
  let k := Z.of_nat (fst (unitOf v)) in
  let n := (v ÷ 1024 ^ k)%Z in
  humanizeBytes v = unitF n (snd (unitOf v)) /\
  (n * 1024 ^ k <= v < (n + 1) * 1024 ^ k)%Z /\
  (0 <= n)%Z /\
  (snd (unitOf v) <> "T" -> n < 1024)%Z /\
  (v <= strconv.MaxInt64 -> n < 2 ^ 23)%Z.
Proof.
  intros Hv k n. split; [apply humanizeBytes_by_unit |].
  assert (Hk : (0 < 1024 ^ k)%Z) by (apply Z.pow_pos_nonneg; lia).
  assert (Hn : (n = v / 1024 ^ k)%Z) by (apply Z.quot_div_nonneg; lia).
  pose proof (Z.mul_div_le v (1024 ^ k) Hk) as Hlo.
  pose proof (Z.mul_succ_div_gt v (1024 ^ k) Hk) as Hhi.
  rewrite <- Hn in Hlo, Hhi.
  split; [lia |]. split; [rewrite Hn; apply Z.div_pos; lia |].
  split.
  - intros Hu. rewrite Hn. subst k. unfold unitOf in *.
    destruct (Z.ltb_spec v 1024); [simpl; rewrite Z.div_1_r; lia |].
    destruct (Z.ltb_spec v (1024 ^ 2));
      [apply Z.div_lt_upper_bound; simpl in *; lia |].
    destruct (Z.ltb_spec v (1024 ^ 3));
      [apply Z.div_lt_upper_bound; simpl in *; lia |].
    destruct (Z.ltb_spec v (1024 ^ 4));
      [apply Z.div_lt_upper_bound; simpl in *; lia |].
    simpl in Hu. congruence.
  - intros Hmax. unfold strconv.MaxInt64 in Hmax. rewrite Hn. subst k.
    unfold unitOf.
    destruct (Z.ltb_spec v 1024); [simpl; rewrite Z.div_1_r; lia |].
    destruct (Z.ltb_spec v (1024 ^ 2));
      [apply Z.div_lt_upper_bound; simpl in *; lia |].
    destruct (Z.ltb_spec v (1024 ^ 3));
      [apply Z.div_lt_upper_bound; simpl in *; lia |].
    destruct (Z.ltb_spec v (1024 ^ 4));
      [apply Z.div_lt_upper_bound; simpl in *; lia |].
    apply Z.div_lt_upper_bound; simpl in *; lia.
Qed.

Lemma humanizeBytes_truncates_witness :
  humanizeBytes 1536 = "1K" /\ (1 * 1024 <= 1536 < 2 * 1024)%Z.
Proof.
  destruct (humanizeBytes_truncates 1536 ltac:(discriminate)) as [H1 [H2 _]].
  split; [exact H1 | exact H2].
Defined.

(** ** More on the match rules *)

(** X2. The rule for directories looks at the start of the name only: a
    directory whose name extends an eligible directory name is eligible
    too.  The rule for files is not of this kind, as the patterns reach
    to the end of the name; and the empty name is never eligible. *)
Theorem directory_rule_extends :
  (forall n s, shouldDelete true n = true ->
               shouldDelete true (n ++ s) = true) /\
  shouldDelete false "go.work.sum" = true /\
  shouldDelete false "go.work.sum.orig" = false /\
  (forall isDir, shouldDelete isDir "" = false).
Proof.
  split; [| repeat split; intros [|]; reflexivity].
  intros n s H. unfold shouldDelete in *.
  destruct (String.eqb (n ++ s) "consul-test"); [reflexivity |].
  apply existsb_HasPrefix.
  destruct (String.eqb_spec n "consul-test") as [-> | _].
  - exists "consul". split; [simpl; tauto |]. exists ("-test" ++ s)%string.
    reflexivity.
  - apply existsb_HasPrefix in H. destruct H as [pfx [Hin [rest ->]]].
    exists pfx. split; [assumption |]. exists (rest ++ s)%string.
    clear. induction pfx as [| c pfx IH]; simpl; [reflexivity | now rewrite IH].
Qed.

Lemma directory_rule_extends_witness :
  shouldDelete true ("consul" ++ "ting-notes") = true.
Proof. exact (proj1 directory_rule_extends "consul" "ting-notes" eq_refl). Defined.

Lemma filter_within {A : Type} (P Q : A -> bool) (l : list A) :
  (forall x, P x = true -> Q x = true) ->
  filter P l = filter P (filter Q l).
Proof.
  intros H. induction l as [| x l IH]; [reflexivity |]. simpl.
  destruct (P x) eqn:HP.
  - rewrite (H x HP). simpl. rewrite HP. now rewrite IH.
  - destruct (Q x); simpl; [rewrite HP |]; exact IH.
Qed.

Lemma Original_prefixes_kept (pfx : string) :
  In pfx Original.eligiblePrefixes -> In pfx eligiblePrefixes.
Proof.
  unfold Original.eligiblePrefixes. simpl.
  intros H. repeat (destruct H as [<- | H]; [tauto |]). contradiction.
Qed.

Lemma Original_collect_loop (tmpRoot : string) (files : list FileInfo) :
  forall roots,
    fold_left
      (fun roots st =>
         if IsDir st && Original.shouldDelete (Name st)
         then roots ++ [filepath.Join tmpRoot (Name st)]
         else roots)
      files roots =
    roots ++ map (fun st => filepath.Join tmpRoot (Name st))
                 (filter (fun st => IsDir st && Original.shouldDelete (Name st))
                         files).
Proof.
  induction files as [| st files IH]; intros roots; simpl.
  - now rewrite app_nil_r.
  - rewrite IH.
    destruct (IsDir st && Original.shouldDelete (Name st)); simpl;
      [now rewrite <- app_assoc | reflexivity].
Qed.

(** X3. Whatever the first revision selected, [main.go] selects: its
    rule accepts no name that the directory rule of [main.go] rejects,
    and its candidates are the directories among the candidates of
    [main.go] that its own rule accepts, in the same order. *)
Theorem Original_rules_subsumed :
  (forall n, Original.shouldDelete n = true -> shouldDelete true n = true) /\
  (forall (os : OS) tmpRoot w w' files,
      os_ReadDir tmpRoot w = ((files, None), w') ->
      fst (result (Original.scanForToplevelStuff tmpRoot w)) =
      map (fun st => filepath.Join tmpRoot (Name st))
          (filter (fun st => IsDir st && Original.shouldDelete (Name st))
                  (filter eligible files))).
Proof.
  assert (Hrule : forall n, Original.shouldDelete n = true ->
                            shouldDelete true n = true).
  { intros n H. unfold Original.shouldDelete in H. unfold shouldDelete.
    destruct (String.eqb n "consul-test"); [reflexivity |].
    apply existsb_HasPrefix.
    destruct (strings.HasPrefix n "go-build") eqn:Hgo.
    - exists "go-build". split; [simpl; tauto |].
      now apply HasPrefix_StartsWith.
    - apply existsb_HasPrefix in H. destruct H as [pfx [Hin Hs]].
      exists pfx. split; [now apply Original_prefixes_kept | assumption]. }
  split; [exact Hrule |].
  intros os tmpRoot w w' files H.
  unfold Original.scanForToplevelStuff, bind, ReadDir, result. rewrite H. simpl.
  rewrite Original_collect_loop. simpl. f_equal.
  apply filter_within. intros st Hst.
  apply andb_true_iff in Hst. destruct Hst as [Hd Ho].
  unfold eligible. rewrite Hd. now apply Hrule.
Qed.

Lemma Original_rules_subsumed_witness : shouldDelete true "go-build-123" = true.
Proof. exact (proj1 Original_rules_subsumed "go-build-123" eq_refl). Defined.

(** ** What [estimateTreeSize] reads and reports *)

Lemma span_spec (p : ascii -> bool) (s a b : string) :
  span p s = (a, b) ->
  s = (a ++ b)%string /\ allBytes p a = true /\
  match b with String c _ => p c = false | EmptyString => True end.
Proof.
  revert a b. induction s as [| c s IH]; intros a b H; simpl in H.
  - inversion H; subst. auto.
  - destruct (p c) eqn:Hc.
    + destruct (span p s) as [a' b'] eqn:E. inversion H; subst.
      destruct (IH a' b eq_refl) as [-> [Ha Hb]]. simpl. rewrite Hc. auto.
    + inversion H; subst. simpl. auto.
Qed.

Lemma span_app (p : ascii -> bool) (a b : string) :
  allBytes p a = true ->
  match b with String c _ => p c = false | EmptyString => True end ->
  span p (a ++ b) = (a, b).
Proof.
  intros Ha Hb. induction a as [| c a IH]; simpl in *.
  - destruct b as [| c b]; [reflexivity |]. simpl. now rewrite Hb.
  - apply andb_true_iff in Ha. destruct Ha as [Hc Ha].
    rewrite Hc, (IH Ha). reflexivity.
Qed.

Lemma parseDigits_value (s : string) :
  forall acc v,
    strconv.parseDigits s acc = Some v <->
    allBytes strconv.isDigit s = true /\ digitsValue s acc = v.
Proof.
  induction s as [| c s IH]; intros acc v; simpl.
  - split; [intros H; inversion H; auto | intros [_ ->]; reflexivity].
  - destruct (strconv.isDigit c); simpl; [apply IH |].
    split; [discriminate | intros [H _]; discriminate].
Qed.

Lemma digitsValue_nonneg (s : string) :
  forall acc, (0 <= acc)%Z -> (0 <= digitsValue s acc)%Z.
Proof.
  induction s as [| c s IH]; intros acc Hacc; cbn [digitsValue];
    [assumption |].
  apply IH. unfold strconv.digitVal. lia.
Qed.

Lemma ParseInt_value (s : string) (v : Z) :
  strconv.ParseInt s = Some v <->
  s <> EmptyString /\ allBytes strconv.isDigit s = true /\
  digitsValue s 0 = v /\ (v <= strconv.MaxInt64)%Z.
Proof.
  unfold strconv.ParseInt. destruct s as [| c s].
  - split; [discriminate | intros [H _]; congruence].
  - destruct (strconv.parseDigits (String c s) 0) as [v' |] eqn:E.
    + apply parseDigits_value in E. destruct E as [Hd Hv].
      destruct (Z.leb_spec v' strconv.MaxInt64) as [Hle | Hgt].
      * split; [intros H; inversion H; subst; repeat split; auto; discriminate |].
        intros [_ [_ [Hv' _]]]. congruence.
      * split; [discriminate |]. intros [_ [_ [Hv' Hle]]]. 
        rewrite Hv in Hv'. lia.
    + split; [discriminate |]. intros [_ [Hd [Hv _]]].
      assert (strconv.parseDigits (String c s) 0 = Some v)
        by (apply parseDigits_value; auto).
      congruence.
Qed.

Lemma space_is_no_digit (c : ascii) : isSpace c = true -> strconv.isDigit c = false.
Proof.
  unfold isSpace, strconv.isDigit. intros H.
  repeat (apply orb_true_iff in H; destruct H as [H | H]);
    apply Nat.eqb_eq in H; rewrite H; reflexivity.
Qed.

Lemma string_app_assoc (a b c : string) :
  ((a ++ b) ++ c = a ++ b ++ c)%string.
Proof. induction a as [| x a IH]; simpl; [reflexivity | now rewrite IH]. Qed.

Lemma duRE_match (s m g : string) :
  duRE_FindStringSubmatch s = Some [m; g] <->
  exists spaces rest,
    s = (g ++ spaces ++ rest)%string /\ m = (g ++ spaces)%string /\
    g <> EmptyString /\ allBytes strconv.isDigit g = true /\
    spaces <> EmptyString /\ allBytes isSpace spaces = true /\
    match rest with String c _ => isSpace c = false | EmptyString => True end.
Proof.
  unfold duRE_FindStringSubmatch. split.
  - destruct (span strconv.isDigit s) as [digits rest1] eqn:E1.
    destruct (span isSpace rest1) as [spaces rest] eqn:E2.
    destruct (String.eqb_spec digits "") as [Hd | Hd]; [discriminate |].
    destruct (String.eqb_spec spaces "") as [Hs | Hs]; [discriminate |].
    simpl. intros H. inversion H; subst.
    apply span_spec in E1. destruct E1 as [-> [Hg _]].
    apply span_spec in E2. destruct E2 as [-> [Hsp Hrest]].
    exists spaces, rest. repeat split; auto.
  - intros [spaces [rest [-> [-> [Hg [Hgd [Hs [Hsd Hrest]]]]]]]].
    rewrite (span_app strconv.isDigit g (spaces ++ rest) Hgd).
    + rewrite (span_app isSpace spaces rest Hsd Hrest).
      destruct (String.eqb_spec g "") as [E | _]; [contradiction |].
      destruct (String.eqb_spec spaces "") as [E | _]; [contradiction |].
      reflexivity.
    + destruct spaces as [| c spaces]; [contradiction |]. simpl in *.
      apply andb_true_iff in Hsd. destruct Hsd as [Hc _].
      now apply space_is_no_digit.
Qed.

Lemma duRE_shape (s : string) (l : list string) :
  duRE_FindStringSubmatch s = Some l -> exists m g, l = [m; g].
Proof.
  unfold duRE_FindStringSubmatch.
  destruct (span strconv.isDigit s) as [digits rest1].
  destruct (span isSpace rest1) as [spaces rest].
  destruct (String.eqb digits "" || String.eqb spaces ""); [discriminate |].
  intros H. inversion H. eauto.
Qed.

(** X4. [estimateTreeSize] returns a size exactly when the path is not
    empty, [du] ran without error and its output starts with decimal
    digits followed by white space; the size is the number the digits
    denote, which must fit [int64], and whatever follows the white space
    is ignored.  [du] is called once.  A size is never negative. *)
Theorem estimateTreeSize_reads_leading_integer
        (os : OS) (d : string) (w w' : World) (v : Z) (evs : list event) :
  (estimateTreeSize d w = (v, None, w', evs) <->
   d <> "" /\ evs = [DuCall d] /\
   exists cmd, exec_du d w = (cmd, w') /\ runErr cmd = None /\
   exists digits spaces rest,
     stdout cmd = (digits ++ spaces ++ rest)%string /\
     digits <> "" /\ allBytes strconv.isDigit digits = true /\
     spaces <> "" /\ allBytes isSpace spaces = true /\
     match rest with String c _ => isSpace c = false | EmptyString => True end /\
     digitsValue digits 0 = v /\ (v <= strconv.MaxInt64)%Z) /\
  (estimateTreeSize d w = (v, None, w', evs) ->
   (0 <= v <= strconv.MaxInt64)%Z).
Proof.
  assert (Hiff : estimateTreeSize d w = (v, None, w', evs) <->
   d <> "" /\ evs = [DuCall d] /\
   exists cmd, exec_du d w = (cmd, w') /\ runErr cmd = None /\
   exists digits spaces rest,
     stdout cmd = (digits ++ spaces ++ rest)%string /\
     digits <> "" /\ allBytes strconv.isDigit digits = true /\
     spaces <> "" /\ allBytes isSpace spaces = true /\
     match rest with String c _ => isSpace c = false | EmptyString => True end /\
     digitsValue digits 0 = v /\ (v <= strconv.MaxInt64)%Z).
  { unfold estimateTreeSize.
    destruct (String.eqb_spec d "") as [Hd | Hd].
    { split; [discriminate | intros [H _]; contradiction]. }
    unfold bind, du, ret. destruct (exec_du d w) as [cmd w1] eqn:Edu.
    split.
    - intros H. split; [assumption |].
      destruct (runErr cmd) eqn:Erun; [discriminate |].
      destruct (duRE_FindStringSubmatch (stdout cmd)) as [l |] eqn:Ere;
        [| discriminate].
      destruct (duRE_shape _ _ Ere) as [m [g ->]].
      destruct (strconv.ParseInt g) as [v' |] eqn:Ep; [| discriminate].
      inversion H; subst. split; [reflexivity |].
      exists cmd. split; [reflexivity |]. split; [assumption |].
      apply duRE_match in Ere.
      destruct Ere as [spaces [rest [Hs [_ [Hg [Hgd [Hsp [Hspd Hrest]]]]]]]].
      apply ParseInt_value in Ep. destruct Ep as [_ [_ [Hv Hle]]].
      exists g, spaces, rest. repeat split; auto.
    - intros [_ [-> [cmd' [Hcmd [Hrun [g [spaces [rest H]]]]]]]].
      inversion Hcmd; subst cmd' w1. rewrite Hrun.
      destruct H as [Hs [Hg [Hgd [Hsp [Hspd [Hrest [Hv Hle]]]]]]].
      assert (Ere : duRE_FindStringSubmatch (stdout cmd) =
                    Some [(g ++ spaces)%string; g]).
      { apply duRE_match. exists spaces, rest. repeat split; auto. }
      rewrite Ere.
      assert (Ep : strconv.ParseInt g = Some v)
        by (apply ParseInt_value; repeat split; auto).
      rewrite Ep. reflexivity. }
  split; [exact Hiff |].
  intros H. apply Hiff in H.
  destruct H as [_ [_ [cmd [_ [_ [g [spaces [rest H]]]]]]]].
  destruct H as [_ [_ [_ [_ [_ [_ [Hv Hle]]]]]]].
  split; [| assumption]. rewrite <- Hv. apply digitsValue_nonneg. lia.
Qed.

Lemma estimateTreeSize_reads_leading_integer_witness :
  (0 <= fst (result (@estimateTreeSize
                       (scriptedOS scenarioListing du4096 rmOk)
                       "/tmp/snapshot.bin" []))
     <= strconv.MaxInt64)%Z.
Proof.
  exact (proj2 (estimateTreeSize_reads_leading_integer
                  (scriptedOS scenarioListing du4096 rmOk)
                  "/tmp/snapshot.bin" [] [] 4096%Z
                  [DuCall "/tmp/snapshot.bin"])
               eq_refl).
Defined.

(** X5. When [estimateTreeSize] fails it reports zero bytes, and the
    error is one of three: the path is empty (and [du] is not run); [du]
    failed, and the description is the error of the run, a colon and what
    [du] wrote to standard error; or the output of [du] does not start
    with a number that fits [int64] followed by white space, and the
    description quotes the output. *)
Theorem estimateTreeSize_failure_modes
        (os : OS) (d : string) (w w' : World) (sz : Z) (e : error)
        (evs : list event) :
  estimateTreeSize d w = (sz, Some e, w', evs) ->
  sz = 0%Z /\
  ((d = "" /\ e = "missing directory name" /\ w' = w /\ evs = []) \/
   (d <> "" /\ evs = [DuCall d] /\
    exists cmd, exec_du d w = (cmd, w') /\
      ((exists re, runErr cmd = Some re /\
                   e = (re ++ ": " ++ stderr cmd)%string) \/
       (runErr cmd = None /\
        e = ("unrecognized du output: " ++ stdout cmd)%string /\
        forall m g, duRE_FindStringSubmatch (stdout cmd) = Some [m; g] ->
                    (strconv.MaxInt64 < digitsValue g 0)%Z)))).
Proof.
  unfold estimateTreeSize.
  destruct (String.eqb_spec d "") as [Hd | Hd].
  { unfold ret. intros H. inversion H; subst. split; [reflexivity |].
    left. auto. }
  unfold bind, du, ret. destruct (exec_du d w) as [cmd w1] eqn:Edu.
  destruct (runErr cmd) as [re |] eqn:Erun.
  { intros H. inversion H; subst. split; [reflexivity |]. right.
    split; [assumption |]. split; [reflexivity |].
    exists cmd. split; [reflexivity |]. left. exists re. auto. }
  destruct (duRE_FindStringSubmatch (stdout cmd)) as [l |] eqn:Ere.
  - destruct (duRE_shape _ _ Ere) as [m [g ->]].
    destruct (strconv.ParseInt g) as [v' |] eqn:Ep; [discriminate |].
    intros H. inversion H; subst. split; [reflexivity |]. right.
    split; [assumption |]. split; [reflexivity |].
    exists cmd. split; [reflexivity |]. right.
    split; [exact Erun |]. split; [reflexivity |].
    intros m' g' Hm. assert (Hg' : g' = g) by congruence. subst g'.
    apply duRE_match in Ere.
    destruct Ere as [spaces [rest [_ [_ [Hg [Hgd _]]]]]].
    destruct (Z.leb_spec (digitsValue g 0) strconv.MaxInt64) as [Hle | Hgt];
      [| assumption].
    assert (strconv.ParseInt g = Some (digitsValue g 0))
      by (apply ParseInt_value; repeat split; auto).
    congruence.
  - intros H. inversion H; subst. split; [reflexivity |]. right.
    split; [assumption |]. split; [reflexivity |].
    exists cmd. split; [reflexivity |]. right.
    split; [exact Erun |]. split; [reflexivity |].
    intros m g Hm. congruence.
Qed.

Lemma estimateTreeSize_failure_modes_witness :
  fst (result (@estimateTreeSize
                 (scriptedOS scenarioListing (duDenied "/tmp/x") rmOk)
                 "/tmp/x" [])) = 0%Z.
Proof.
  exact (proj1 (estimateTreeSize_failure_modes
                  (scriptedOS scenarioListing (duDenied "/tmp/x") rmOk)
                  "/tmp/x" [] [] 0%Z
                  ("exit status 1: du: cannot read directory '/tmp/x': Permission denied" ++ LF)%string
                  [DuCall "/tmp/x"] eq_refl)).
Defined.

(** ** Runs as a whole *)

Lemma scan_listing {os : OS} tmpRoot w w1 files :
  os_ReadDir tmpRoot w = ((files, None), w1) ->
  scanForToplevelStuff tmpRoot w =
  (candidates tmpRoot files, None, w1, [ReadDirCall tmpRoot] ++ []).
Proof.
  intros H. unfold scanForToplevelStuff, bind, ReadDir, ret. rewrite H.
  now rewrite collect_loop.
Qed.

Lemma scan_listing_fails {os : OS} tmpRoot w w1 files e :
  os_ReadDir tmpRoot w = ((files, Some e), w1) ->
  scanForToplevelStuff tmpRoot w = ([], Some e, w1, [ReadDirCall tmpRoot] ++ []).
Proof.
  intros H. unfold scanForToplevelStuff, bind, ReadDir, ret. now rewrite H.
Qed.

(** X6. A run that cannot get its candidates touches nothing.  With an
    empty root it returns "missing required -tmp-root argument" without
    a single call; when the listing of the root fails it returns the
    listing's error, and the listing is the only call it made: no size is
    measured, nothing is removed, no summary is printed. *)
Theorem run_fails_before_touching (os : OS) (dryRun : bool) (w : World) :
  run "" dryRun w = (Some "missing required -tmp-root argument", w, []) /\
  forall tmpRoot files e w1,
    String.eqb tmpRoot "" = false ->
    os_ReadDir tmpRoot w = ((files, Some e), w1) ->
    run tmpRoot dryRun w = (Some e, w1, [ReadDirCall tmpRoot]).
Proof.
  split; [reflexivity |].
  intros tmpRoot files e w1 Hroot H.
  rewrite (run_phases tmpRoot dryRun w Hroot).
  now rewrite (scan_listing_fails tmpRoot w w1 files e H).
Qed.

Lemma run_fails_before_touching_witness :
  @run (unlistableOS "open /nowhere: no such file or directory")
       "/nowhere" false [] =
  (Some "open /nowhere: no such file or directory", [],
   [ReadDirCall "/nowhere"]).
Proof.
  exact (proj2 (run_fails_before_touching
                  (unlistableOS "open /nowhere: no such file or directory")
                  false [])
               "/nowhere" [] "open /nowhere: no such file or directory" []
               eq_refl eq_refl).
Defined.

(** *** Which paths a run measures and removes *)

Lemma measurements_app (a b : list event) :
  measurements (a ++ b) = measurements a ++ measurements b.
Proof. apply flat_map_app. Qed.

Lemma removals_app (a b : list event) :
  removals (a ++ b) = removals a ++ removals b.
Proof. apply flat_map_app. Qed.

Lemma InitialSegment_nil {A : Type} (l : list A) : InitialSegment [] l.
Proof. now exists l. Qed.

Lemma InitialSegment_refl {A : Type} (l : list A) : InitialSegment l l.
Proof. exists []. now rewrite app_nil_r. Qed.

Lemma InitialSegment_cons {A : Type} (x : A) (pre l : list A) :
  InitialSegment pre l -> InitialSegment (x :: pre) (x :: l).
Proof. intros [rest ->]. now exists rest. Qed.

(** The events of one estimation: a call of [du], except for the empty
    path, which is an error. *)
Lemma estimateTreeSize_shape {os : OS} d w :
  exists sz err w1,
    estimateTreeSize d w =
    (sz, err, w1, if String.eqb d "" then [] else [DuCall d]) /\
    (String.eqb d "" = true -> err = Some "missing directory name") /\
    (String.eqb d "" = true -> w1 = w) /\
    (String.eqb d "" = false -> w1 = snd (exec_du d w)).
Proof.
  unfold estimateTreeSize. destruct (String.eqb d "").
  - exists 0%Z, (Some "missing directory name"), w.
    repeat split; intros; first [reflexivity | discriminate].
  - unfold bind, du, ret. destruct (exec_du d w) as [cmd w1].
    destruct (runErr cmd) as [re |];
      [eexists _, _, w1; split; [reflexivity |];
       repeat split; intros; first [reflexivity | discriminate] |].
    destruct (duRE_FindStringSubmatch (stdout cmd)) as [[| m0 [| m1 [| m2 m]]] |];
      try (eexists _, _, w1; split; [reflexivity |];
           repeat split; intros; first [reflexivity | discriminate]).
    destruct (strconv.ParseInt m1);
      eexists _, _, w1; (split; [reflexivity |]);
      repeat split; intros; first [reflexivity | discriminate].
Qed.

(** One turn of each loop of [run], with the binds expanded. *)
Lemma estimateLoop_step {os : OS} d rest totalBytes w :
  estimateLoop (d :: rest) totalBytes w =
  let '(sz, err, w1, ev1) := estimateTreeSize d w in
  match err with
  | Some e =>
      if strings.Contains e "Permission denied" then
        let '(r, w2, ev2) := estimateLoop rest (add64 totalBytes sz) w1 in
        (r, w2,
         ev1 ++ Stdout ("ERR: skipping " ++ d ++ " for estimation: " ++ e ++ LF)
             :: ev2)
      else (totalBytes, Some e, w1, ev1 ++ [])
  | None =>
      let '(r, w2, ev2) := estimateLoop rest (add64 totalBytes sz) w1 in
      (r, w2, ev1 ++ ev2)
  end.
Proof.
  cbn [estimateLoop]. unfold bind at 1.
  destruct (estimateTreeSize d w) as [[[sz [e |]] w1] ev1]; [| reflexivity].
  destruct (strings.Contains e "Permission denied"); [| reflexivity].
  unfold bind, Printf.
  destruct (estimateLoop rest (add64 totalBytes sz) w1) as [[r w2] ev2].
  reflexivity.
Qed.

Lemma deleteLoop_step {os : OS} d rest w :
  deleteLoop false (d :: rest) w =
  let '(err, w1) := os_RemoveAll d w in
  match err with
  | Some e =>
      if strings.Contains e "Permission denied" then
        let '(r, w2, ev2) := deleteLoop false rest w1 in
        (r, w2,
         Stdout ("deleting " ++ d ++ LF) :: RemoveAllCall d ::
         Stdout ("ERR: skipping " ++ d ++ ": " ++ e ++ LF) :: ev2)
      else (Some e, w1, [Stdout ("deleting " ++ d ++ LF); RemoveAllCall d])
  | None =>
      let '(r, w2, ev2) := deleteLoop false rest w1 in
      (r, w2, Stdout ("deleting " ++ d ++ LF) :: RemoveAllCall d :: ev2)
  end.
Proof.
  cbn [deleteLoop]. unfold bind at 1 2. unfold Printf, RemoveAll.
  destruct (os_RemoveAll d w) as [[e |] w1].
  - destruct (strings.Contains e "Permission denied"); [| reflexivity].
    unfold bind, Printf.
    destruct (deleteLoop false rest w1) as [[r w2] ev2]. reflexivity.
  - destruct (deleteLoop false rest w1) as [[r w2] ev2]. reflexivity.
Qed.

Lemma deleteLoop_dry_step {os : OS} d rest w :
  deleteLoop true (d :: rest) w =
  let '(r, w2, ev2) := deleteLoop true rest w in
  (r, w2, Stdout ("DRY-RUN: deleting " ++ d ++ LF) :: ev2).
Proof.
  cbn [deleteLoop]. unfold bind, Printf.
  destruct (deleteLoop true rest w) as [[r w2] ev2]. reflexivity.
Qed.

Lemma estimateLoop_trace {os : OS} dirs :
  forall totalBytes w,
    removals (events (estimateLoop dirs totalBytes w)) = [] /\
    InitialSegment (measurements (events (estimateLoop dirs totalBytes w))) dirs /\
    (snd (result (estimateLoop dirs totalBytes w)) = None ->
     measurements (events (estimateLoop dirs totalBytes w)) = dirs).
Proof.
  induction dirs as [| d dirs IH]; intros totalBytes w.
  - simpl. split; [reflexivity |]. split; [apply InitialSegment_nil | reflexivity].
  - rewrite estimateLoop_step.
    destruct (estimateTreeSize_shape d w) as [sz [err [w1 [E [Hempty _]]]]].
    rewrite E.
    destruct (String.eqb d "") eqn:Hd.
    + rewrite (Hempty eq_refl). simpl.
      split; [reflexivity |]. split; [apply InitialSegment_nil |].
      intros H; discriminate H.
    + destruct (IH (add64 totalBytes sz) w1) as [Hr [Hm Hall]].
      destruct err as [e |]; [destruct (strings.Contains e "Permission denied") |].
      * destruct (estimateLoop dirs (add64 totalBytes sz) w1) as [[r w2] ev2].
        unfold events, result in *. simpl in *.
        split; [assumption |]. split; [now apply InitialSegment_cons |].
        intros Hnone. now rewrite (Hall Hnone).
      * unfold events, result. simpl.
        split; [reflexivity |].
        split; [apply InitialSegment_cons, InitialSegment_nil |].
        intros H; discriminate H.
      * destruct (estimateLoop dirs (add64 totalBytes sz) w1) as [[r w2] ev2].
        unfold events, result in *. simpl in *.
        split; [assumption |]. split; [now apply InitialSegment_cons |].
        intros Hnone. now rewrite (Hall Hnone).
Qed.

Lemma deleteLoop_trace {os : OS} dryRun dirs :
  forall w,
    measurements (events (deleteLoop dryRun dirs w)) = [] /\
    InitialSegment (removals (events (deleteLoop dryRun dirs w))) dirs /\
    (dryRun = true -> removals (events (deleteLoop dryRun dirs w)) = []) /\
    (dryRun = false -> result (deleteLoop dryRun dirs w) = None ->
     removals (events (deleteLoop dryRun dirs w)) = dirs).
Proof.
  induction dirs as [| d dirs IH]; intros w.
  - simpl. split; [reflexivity |]. split; [apply InitialSegment_nil |].
    split; reflexivity.
  - destruct dryRun.
    + rewrite deleteLoop_dry_step. destruct (IH w) as [Hm [Hr [Hdry Hlive]]].
      destruct (deleteLoop true dirs w) as [[r w2] ev2].
      unfold events, result in *. simpl in *.
      split; [assumption |].
      split; [rewrite (Hdry eq_refl); apply InitialSegment_nil |].
      split; [assumption |]. intros H; discriminate H.
    + rewrite deleteLoop_step.
      destruct (os_RemoveAll d w) as [err w1].
      destruct (IH w1) as [Hm [Hr [Hdry Hlive]]].
      destruct err as [e |]; [destruct (strings.Contains e "Permission denied") |].
      * destruct (deleteLoop false dirs w1) as [[r w2] ev2].
        unfold events, result in *. simpl in *.
        split; [assumption |]. split; [now apply InitialSegment_cons |].
        split; [intros H; discriminate H |].
        intros _ Hnone. now rewrite (Hlive eq_refl Hnone).
      * unfold events, result. simpl.
        split; [reflexivity |].
        split; [apply InitialSegment_cons, InitialSegment_nil |].
        split; intros H; [discriminate H |]. intros H'; discriminate H'.
      * destruct (deleteLoop false dirs w1) as [[r w2] ev2].
        unfold events, result in *. simpl in *.
        split; [assumption |]. split; [now apply InitialSegment_cons |].
        split; [intros H; discriminate H |].
        intros _ Hnone. now rewrite (Hlive eq_refl Hnone).
Qed.

(** X7. A run measures and removes candidates only, each at most once and
    in the order of the listing: the paths given to [du], and those given
    to [os.RemoveAll], are initial segments of the candidate list.  A run
    that completes has measured every candidate, has removed none of them
    when dry and every one of them when live, and its last line is the
    summary with the number of all candidates. *)
Theorem run_processes_candidates_in_order
        (os : OS) tmpRoot dryRun w w1 files :
  os_ReadDir tmpRoot w = ((files, None), w1) ->
  let evs := events (run tmpRoot dryRun w) in
  InitialSegment (measurements evs) (candidates tmpRoot files) /\
  InitialSegment (removals evs) (candidates tmpRoot files) /\
  (result (run tmpRoot dryRun w) = None ->
   measurements evs = candidates tmpRoot files /\
   removals evs = (if dryRun then [] else candidates tmpRoot files) /\
   exists totalBytes before,
     evs = before ++
           [Stdout (summary totalBytes (List.length (filter eligible files)))]).
Proof.
  intros Hls evs. subst evs.
  destruct (String.eqb tmpRoot "") eqn:Hroot.
  { unfold run. rewrite Hroot. unfold ret, events, result. simpl.
    split; [apply InitialSegment_nil |]. split; [apply InitialSegment_nil |].
    intros H; discriminate H. }
  rewrite (run_phases tmpRoot dryRun w Hroot).
  rewrite (scan_listing tmpRoot w w1 files Hls).
  set (dirs := candidates tmpRoot files).
  assert (Hlen : List.length dirs = List.length (filter eligible files))
    by apply length_map.
  destruct (estimateLoop_trace dirs 0%Z w1) as [Hr2 [Hm2 Hall2]].
  destruct (estimateLoop dirs 0%Z w1) as [[[totalBytes [e |]] w2] ev2];
    unfold events, result in *; simpl in *.
  { rewrite measurements_app, removals_app, Hr2, !app_nil_r.
    split; [assumption |]. split; [apply InitialSegment_nil |].
    intros H; discriminate H. }
  destruct (deleteLoop_trace dryRun dirs w2) as [Hm3 [Hr3 [Hdry Hlive]]].
  destruct (deleteLoop dryRun dirs w2) as [[[e |] w3] ev3];
    unfold events, result in *; simpl in *;
    rewrite !measurements_app, !removals_app, Hr2, Hm3, (Hall2 eq_refl);
    simpl; rewrite ?app_nil_r.
  - split; [apply InitialSegment_refl |]. split; [assumption |].
    intros H; discriminate H.
  - split; [apply InitialSegment_refl |]. split; [assumption |].
    intros _. split; [reflexivity |]. split.
    + destruct dryRun; [now apply Hdry | now apply Hlive].
    + exists totalBytes, ([ReadDirCall tmpRoot] ++ ev2 ++ ev3).
      rewrite Hlen. now rewrite <- !app_assoc.
Qed.

Lemma run_processes_candidates_in_order_witness :
  removals (events (@run (scriptedOS scenarioListing du4096 rmOk)
                         "/tmp" false [])) =
  ["/tmp/go-build-123"; "/tmp/snapshot.bin"; "/tmp/gopls.abc-heap.pb.gz"].
Proof.
  exact (proj1 (proj2 (proj2 (proj2
           (run_processes_candidates_in_order
              (scriptedOS scenarioListing du4096 rmOk) "/tmp" false [] []
              scenarioListing eq_refl)) eq_refl))).
Defined.

(** ** The total of the estimation *)

Lemma wrap64_add_l (a b : Z) : wrap64 (wrap64 a + b) = wrap64 (a + b).
Proof.
  unfold wrap64. f_equal.
  replace ((a + 2 ^ 63) mod 2 ^ 64 - 2 ^ 63 + b + 2 ^ 63)%Z
    with ((a + 2 ^ 63) mod 2 ^ 64 + b)%Z by lia.
  rewrite Z.add_mod_idemp_l by lia. f_equal. lia.
Qed.

Lemma wrap64_small (z : Z) :
  (strconv.MinInt64 <= z <= strconv.MaxInt64)%Z -> wrap64 z = z.
Proof.
  unfold wrap64, strconv.MinInt64, strconv.MaxInt64. intros H.
  rewrite Z.mod_small by lia. lia.
Qed.

Lemma estimateTreeSize_range {os : OS} d w :
  (0 <= fst (result (estimateTreeSize d w)) <= strconv.MaxInt64)%Z.
Proof.
  assert (H0 : (0 <= 0 <= strconv.MaxInt64)%Z)
    by (unfold strconv.MaxInt64; lia).
  unfold estimateTreeSize, result.
  destruct (String.eqb d ""); [exact H0 |].
  unfold bind, du, ret. destruct (exec_du d w) as [cmd w1].
  destruct (runErr cmd); [exact H0 |].
  destruct (duRE_FindStringSubmatch (stdout cmd)) as [[| m0 [| m1 [| m2 m]]] |];
    try exact H0.
  destruct (strconv.ParseInt m1) as [v |] eqn:Ep; [| exact H0].
  apply ParseInt_value in Ep. destruct Ep as [_ [_ [Hv Hle]]]. simpl.
  split; [| assumption]. rewrite <- Hv. apply digitsValue_nonneg. lia.
Qed.

Lemma estimateLoop_sum {os : OS} (duOf : string -> CmdResult) :
  (forall d w, exec_du d w = (duOf d, w)) ->
  forall dirs totalBytes w total w' evs,
    (strconv.MinInt64 <= totalBytes <= strconv.MaxInt64)%Z ->
    estimateLoop dirs totalBytes w = (total, None, w', evs) ->
    total = wrap64 (totalBytes +
                    sumSizes (map (fun d => fst (result (estimateTreeSize d w)))
                                  dirs)) /\
    w' = w.
Proof.
  intros Hdu. induction dirs as [| d dirs IH];
    intros totalBytes w total w' evs Hrange H.
  - simpl in H. unfold ret in H. inversion H; subst. simpl.
    rewrite Z.add_0_r. split; [| reflexivity]. symmetry. now apply wrap64_small.
  - rewrite estimateLoop_step in H.
    destruct (estimateTreeSize_shape d w) as [sz [err [w1 [E [_ [Hw Hw']]]]]].
    assert (Hw1 : w1 = w).
    { destruct (String.eqb d ""); [now apply Hw |].
      rewrite (Hw' eq_refl), Hdu. reflexivity. }
    subst w1. cbn [map sumSizes fold_right]. rewrite E in *.
    unfold result. cbn [fst].
    assert (Hnext : forall r w2 ev2,
               estimateLoop dirs (add64 totalBytes sz) w = (r, w2, ev2) ->
               snd r = None ->
               fst r = wrap64 (totalBytes +
                         (sz + sumSizes
                                 (map (fun d => fst (fst (fst (estimateTreeSize d w))))
                                      dirs))) /\ w2 = w).
    { intros [t' e'] w2 ev2 Hrest He'. simpl in He'. subst e'.
      destruct (IH (add64 totalBytes sz) w t' w2 ev2 (wrap64_range _) Hrest)
        as [Ht Hw2].
      split; [| assumption]. simpl. rewrite Ht. unfold add64.
      rewrite wrap64_add_l. f_equal. unfold result. lia. }
    destruct err as [e |]; [destruct (strings.Contains e "Permission denied") |].
    + destruct (estimateLoop dirs (add64 totalBytes sz) w) as [[r w2] ev2] eqn:Er.
      inversion H; subst.
      exact (Hnext (total, None) w' ev2 eq_refl eq_refl).
    + discriminate.
    + destruct (estimateLoop dirs (add64 totalBytes sz) w) as [[r w2] ev2] eqn:Er.
      inversion H; subst.
      exact (Hnext (total, None) w' ev2 eq_refl eq_refl).
Qed.

(** X8. Where [du] only observes (its answer for a path does not depend
    on the world, which it leaves alone), the total of an estimation that
    goes through is the sum of the sizes of the candidates, a candidate
    skipped for "Permission denied" counting zero, reduced to [int64] by
    wrap-around; every size is between 0 and [MaxInt64], so the total is
    the exact sum whenever the sum fits. *)
Theorem estimation_total_is_sum
        (os : OS) (duOf : string -> CmdResult) dirs w total w' evs :
  (forall d w0, exec_du d w0 = (duOf d, w0)) ->
  estimateLoop dirs 0%Z w = (total, None, w', evs) ->
  let sizes := map (fun d => fst (result (estimateTreeSize d w))) dirs in
  Forall (fun sz => 0 <= sz <= strconv.MaxInt64)%Z sizes /\
  total = wrap64 (sumSizes sizes) /\
  (sumSizes sizes <= strconv.MaxInt64 -> total = sumSizes sizes)%Z /\
  w' = w.
Proof.
  intros Hdu H sizes.
  assert (Hsizes : Forall (fun sz => 0 <= sz <= strconv.MaxInt64)%Z sizes).
  { apply Forall_forall. intros sz Hin. apply in_map_iff in Hin.
    destruct Hin as [d [<- _]]. apply estimateTreeSize_range. }
  assert (Hnonneg : (0 <= sumSizes sizes)%Z).
  { clear - Hsizes. induction Hsizes as [| sz l Hsz _ IH]; simpl; lia. }
  assert (H0 : (strconv.MinInt64 <= 0 <= strconv.MaxInt64)%Z)
    by (unfold strconv.MinInt64, strconv.MaxInt64; lia).
  destruct (estimateLoop_sum duOf Hdu dirs 0%Z w total w' evs H0 H) as [Ht Hw].
  simpl in Ht. fold sizes in Ht.
  split; [assumption |]. split; [assumption |]. split; [| assumption].
  intros Hfit. rewrite Ht. apply wrap64_small.
  unfold strconv.MinInt64. lia.
Qed.

Lemma estimation_total_is_sum_witness :
  12288%Z =
  wrap64 (sumSizes
            (map (fun d => fst (result (@estimateTreeSize
                                          (scriptedOS scenarioListing du4096 rmOk)
                                          d [])))
                 ["/tmp/go-build-123"; "/tmp/snapshot.bin";
                  "/tmp/gopls.abc-heap.pb.gz"])).
Proof.
  exact (proj1 (proj2 (estimation_total_is_sum
                         (scriptedOS scenarioListing du4096 rmOk) du4096
                         ["/tmp/go-build-123"; "/tmp/snapshot.bin";
                          "/tmp/gopls.abc-heap.pb.gz"]
                         [] 12288%Z []
                         [DuCall "/tmp/go-build-123"; DuCall "/tmp/snapshot.bin";
                          DuCall "/tmp/gopls.abc-heap.pb.gz"]
                         (fun d w0 => eq_refl) eq_refl))).
Defined.

(** ** What a dry run leaves behind *)

Lemma estimateLoop_world {os : OS} :
  (forall d w, snd (exec_du d w) = w) ->
  forall dirs totalBytes w, world (estimateLoop dirs totalBytes w) = w.
Proof.
  intros Hdu. induction dirs as [| d dirs IH]; intros totalBytes w;
    [reflexivity |].
  rewrite estimateLoop_step.
  destruct (estimateTreeSize_shape d w) as [sz [err [w1 [E [_ [Hw Hw']]]]]].
  assert (Hw1 : w1 = w).
  { destruct (String.eqb d ""); [now apply Hw |].
    rewrite (Hw' eq_refl). apply Hdu. }
  subst w1. rewrite E.
  pose proof (IH (add64 totalBytes sz) w) as Hrest.
  destruct err as [e |]; [destruct (strings.Contains e "Permission denied") |];
    try reflexivity;
    destruct (estimateLoop dirs (add64 totalBytes sz) w) as [[r w2] ev2];
    exact Hrest.
Qed.

(** X9. Where listing a directory and running [du] only observe, a dry
    run leaves the world exactly as it found it, whatever the listing and
    whatever errors come up. *)
Theorem dry_run_changes_nothing (os : OS) tmpRoot w :
  (forall d w0, snd (os_ReadDir d w0) = w0) ->
  (forall d w0, snd (exec_du d w0) = w0) ->
  world (run tmpRoot true w) = w.
Proof.
  intros Hls Hdu.
  destruct (String.eqb tmpRoot "") eqn:Hroot;
    [unfold run; rewrite Hroot; reflexivity |].
  rewrite (run_phases tmpRoot true w Hroot).
  assert (Hscan : world (scanForToplevelStuff tmpRoot w) = w).
  { unfold scanForToplevelStuff, bind, ReadDir, world.
    specialize (Hls tmpRoot w).
    destruct (os_ReadDir tmpRoot w) as [[files [e |]] w1]; exact Hls. }
  destruct (scanForToplevelStuff tmpRoot w) as [[[dirs [e |]] w1] ev1];
    unfold world in Hscan; simpl in Hscan; subst w1; [reflexivity |].
  pose proof (estimateLoop_world Hdu dirs 0%Z w) as Hest.
  destruct (estimateLoop dirs 0%Z w) as [[[totalBytes [e |]] w2] ev2];
    unfold world in Hest; simpl in Hest; subst w2; [reflexivity |].
  pose proof (deleteLoop_dry_world dirs w) as Hdel.
  destruct (deleteLoop true dirs w) as [[[e |] w3] ev3];
    unfold world in Hdel; simpl in Hdel; subst w3; reflexivity.
Qed.

Lemma dry_run_changes_nothing_witness :
  world (@run (scriptedOS scenarioListing du4096 rmOk) "/tmp" true
              ["/tmp/removed-earlier"]) =
  ["/tmp/removed-earlier"].
Proof.
  exact (dry_run_changes_nothing
           (scriptedOS scenarioListing du4096 rmOk) "/tmp"
           ["/tmp/removed-earlier"]
           (fun d w0 => eq_refl) (fun d w0 => eq_refl)).
Defined.

(** ** Best-effort clean-up *)

Lemma estimateLoop_completes {os : OS} dirs :
  (forall d w sz e w1 ev,
      In d dirs -> estimateTreeSize d w = (sz, Some e, w1, ev) ->
      strings.Contains e "Permission denied" = true) ->
  forall totalBytes w, snd (result (estimateLoop dirs totalBytes w)) = None.
Proof.
  induction dirs as [| d dirs IH]; intros Hest totalBytes w; [reflexivity |].
  rewrite estimateLoop_step.
  destruct (estimateTreeSize d w) as [[[sz err] w1] ev1] eqn:E.
  assert (Hrest : snd (result (estimateLoop dirs (add64 totalBytes sz) w1)) = None).
  { apply IH. intros d' w0 sz' e' w1' ev' Hin. apply Hest. now right. }
  destruct err as [e |].
  - rewrite (Hest d w sz e w1 ev1 (or_introl eq_refl) E).
    destruct (estimateLoop dirs (add64 totalBytes sz) w1) as [[r w2] ev2].
    exact Hrest.
  - destruct (estimateLoop dirs (add64 totalBytes sz) w1) as [[r w2] ev2].
    exact Hrest.
Qed.

Lemma deleteLoop_completes {os : OS} :
  (forall p w e w1, os_RemoveAll p w = (Some e, w1) ->
                    strings.Contains e "Permission denied" = true) ->
  forall dirs w, result (deleteLoop false dirs w) = None.
Proof.
  intros Hrm. induction dirs as [| d dirs IH]; intros w; [reflexivity |].
  rewrite deleteLoop_step.
  destruct (os_RemoveAll d w) as [[e |] w1] eqn:E.
  - rewrite (Hrm d w e w1 E). specialize (IH w1).
    destruct (deleteLoop false dirs w1) as [[r w2] ev2]. exact IH.
  - specialize (IH w1).
    destruct (deleteLoop false dirs w1) as [[r w2] ev2]. exact IH.
Qed.

(** X10. The clean-up of [main.go] is best effort with respect to the
    errors it recognises: if every failure to measure a candidate and
    every failure to remove a path is described with "Permission denied",
    a live run completes without error, having called [du] and
    [os.RemoveAll] on every candidate, in the order of the listing. *)
Theorem run_best_effort (os : OS) tmpRoot w w1 files :
  String.eqb tmpRoot "" = false ->
  os_ReadDir tmpRoot w = ((files, None), w1) ->
  (forall d w0 sz e w2 ev,
      In d (candidates tmpRoot files) ->
      estimateTreeSize d w0 = (sz, Some e, w2, ev) ->
      strings.Contains e "Permission denied" = true) ->
  (forall p w0 e w2, os_RemoveAll p w0 = (Some e, w2) ->
                     strings.Contains e "Permission denied" = true) ->
  result (run tmpRoot false w) = None /\
  measurements (events (run tmpRoot false w)) = candidates tmpRoot files /\
  removals (events (run tmpRoot false w)) = candidates tmpRoot files.
Proof.
  intros Hroot Hls Hest Hrm.
  rewrite (run_phases tmpRoot false w Hroot).
  rewrite (scan_listing tmpRoot w w1 files Hls).
  set (dirs := candidates tmpRoot files) in *.
  pose proof (estimateLoop_completes dirs Hest 0%Z w1) as Hnone2.
  destruct (estimateLoop_trace dirs 0%Z w1) as [Hr2 [_ Hall2]].
  destruct (estimateLoop dirs 0%Z w1) as [[[totalBytes err2] w2] ev2].
  unfold events, result in *. simpl in *. subst err2.
  pose proof (deleteLoop_completes Hrm dirs w2) as Hnone3.
  destruct (deleteLoop_trace false dirs w2) as [Hm3 [_ [_ Hlive]]].
  destruct (deleteLoop false dirs w2) as [[err3 w3] ev3].
  unfold events, result in *. simpl in *. subst err3.
  cbn [fst snd]. split; [reflexivity |].
  unfold measurements, removals in *. cbn [flat_map app].
  rewrite !flat_map_app, Hr2, Hm3, (Hall2 eq_refl), (Hlive eq_refl eq_refl).
  simpl. rewrite !app_nil_r. auto.
Qed.

Lemma scripted_du_denied (d : string) (w0 : list string) sz e w2 ev :
  @estimateTreeSize (scriptedOS scenarioListing (duDenied "/tmp/snapshot.bin")
                                (rmDenied "/tmp/go-build-123"))
                    d w0 = (sz, Some e, w2, ev) ->
  In d (candidates "/tmp" scenarioListing) ->
  strings.Contains e "Permission denied" = true.
Proof.
  intros H Hin. simpl in Hin.
  destruct Hin as [<- | [<- | [<- | []]]]; inversion H; reflexivity.
Qed.

Lemma scripted_rm_denied (p : string) (w0 : list string) e w2 :
  @os_RemoveAll (scriptedOS scenarioListing (duDenied "/tmp/snapshot.bin")
                            (rmDenied "/tmp/go-build-123"))
                p w0 = (Some e, w2) ->
  strings.Contains e "Permission denied" = true.
Proof.
  simpl. unfold rmDenied.
  destruct (String.eqb_spec p "/tmp/go-build-123") as [-> | _];
    intros H; inversion H; reflexivity.
Qed.

Lemma run_best_effort_witness :
  result (@run (scriptedOS scenarioListing (duDenied "/tmp/snapshot.bin")
                           (rmDenied "/tmp/go-build-123"))
               "/tmp" false []) = None.
Proof.
  exact (proj1 (run_best_effort
                  (scriptedOS scenarioListing (duDenied "/tmp/snapshot.bin")
                              (rmDenied "/tmp/go-build-123"))
                  "/tmp" [] [] scenarioListing eq_refl eq_refl
                  (fun d w0 sz e w2 ev Hin H =>
                     scripted_du_denied d w0 sz e w2 ev H Hin)
                  scripted_rm_denied)).
Defined.

(** ** [main] and [nukeTree] *)

(** X11. The exit status of [main] is 0 when [run] returns no error and
    1 otherwise; in the second case the last thing written is the line
    "ERROR: " followed by the description, on standard error, and [main]
    changes nothing beyond what [run] did.  An exit status of 0 means
    that every candidate of the listing was measured and, unless the run
    was dry, handed to [os.RemoveAll]. *)
Theorem main_exit_status (os : OS) tmpRoot dryRun w :
  world (main tmpRoot dryRun w) = world (run tmpRoot dryRun w) /\
  match result (run tmpRoot dryRun w) with
  | None =>
      result (main tmpRoot dryRun w) = 0 /\
      events (main tmpRoot dryRun w) = events (run tmpRoot dryRun w)
  | Some e =>
      result (main tmpRoot dryRun w) = 1 /\
      events (main tmpRoot dryRun w) =
      events (run tmpRoot dryRun w) ++ [Stderr ("ERROR: " ++ e ++ LF)]
  end /\
  forall files w1,
    os_ReadDir tmpRoot w = ((files, None), w1) ->
    result (main tmpRoot dryRun w) = 0 ->
    measurements (events (main tmpRoot dryRun w)) = candidates tmpRoot files /\
    removals (events (main tmpRoot dryRun w)) =
    (if dryRun then [] else candidates tmpRoot files).
Proof.
  assert (Hmain : main tmpRoot dryRun w =
                  let '(err, w1, ev1) := run tmpRoot dryRun w in
                  match err with
                  | Some e => (1, w1, ev1 ++ [Stderr ("ERROR: " ++ e ++ LF)])
                  | None => (0, w1, ev1)
                  end).
  { unfold main, bind at 1.
    destruct (run tmpRoot dryRun w) as [[[e |] w1] ev1]; simpl;
      [reflexivity | now rewrite app_nil_r]. }
  split; [| split].
  - rewrite Hmain. now destruct (run tmpRoot dryRun w) as [[[e |] w1] ev1].
  - rewrite Hmain. now destruct (run tmpRoot dryRun w) as [[[e |] w1] ev1].
  - intros files w1 Hls Hzero.
    destruct (String.eqb tmpRoot "") eqn:Hroot.
    { rewrite Hmain in Hzero. unfold run in Hzero. rewrite Hroot in Hzero.
      discriminate Hzero. }
    rewrite Hmain in Hzero |- *.
    rewrite (run_phases tmpRoot dryRun w Hroot) in Hzero |- *.
    rewrite (scan_listing tmpRoot w w1 files Hls) in Hzero |- *.
    set (dirs := candidates tmpRoot files) in *.
    destruct (estimateLoop_trace dirs 0%Z w1) as [Hr2 [_ Hall2]].
    destruct (estimateLoop dirs 0%Z w1) as [[[totalBytes [e |]] w2] ev2];
      [discriminate Hzero |].
    destruct (deleteLoop_trace dryRun dirs w2) as [Hm3 [_ [Hdry Hlive]]].
    destruct (deleteLoop dryRun dirs w2) as [[[e |] w3] ev3];
      [discriminate Hzero |].
    unfold events, result in *. simpl in *.
    rewrite !measurements_app, !removals_app, Hr2, Hm3, (Hall2 eq_refl).
    simpl. rewrite !app_nil_r. split; [reflexivity |].
    destruct dryRun; [now apply Hdry | now apply Hlive].
Qed.

Lemma main_exit_status_witness :
  measurements
    (events (@main (scriptedOS scenarioListing du4096 rmOk) "/tmp" true [])) =
  ["/tmp/go-build-123"; "/tmp/snapshot.bin"; "/tmp/gopls.abc-heap.pb.gz"].
Proof.
  exact (proj1 (proj2 (proj2 (main_exit_status
                                (scriptedOS scenarioListing du4096 rmOk)
                                "/tmp" true []))
                      scenarioListing [] eq_refl eq_refl)).
Defined.



(** ** The first revision: the summary comes before the removals *)

Section OriginalEvents.
Context {os : OS}.

Lemma Original_scan_emits tmpRoot :
  emitsOnly notRemoveAll (Original.scanForToplevelStuff tmpRoot).
Proof.
  unfold Original.scanForToplevelStuff. apply emitsOnly_bind.
  - now apply emitsOnly_ReadDir.
  - intros [files [e |]]; apply emitsOnly_ret.
Qed.

Lemma Original_estimateTreeSize_emits d :
  emitsOnly notRemoveAll (Original.estimateTreeSize d).
Proof.
  unfold Original.estimateTreeSize.
  destruct (String.eqb d ""); [apply emitsOnly_ret |].
  apply emitsOnly_bind; [now apply emitsOnly_du |].
  intros cmd. destruct (runErr cmd); [apply emitsOnly_ret |].
  destruct (duRE_FindStringSubmatch (stdout cmd)) as [[| m0 [| m1 [| m2 m]]] |];
    try apply emitsOnly_ret.
  destruct (strconv.ParseInt m1); apply emitsOnly_ret.
Qed.

Lemma Original_estimateLoop_emits dirs :
  forall totalBytes,
    emitsOnly notRemoveAll (Original.estimateLoop dirs totalBytes).
Proof.
  induction dirs as [| d dirs IH]; intros totalBytes; simpl.
  - apply emitsOnly_ret.
  - apply emitsOnly_bind; [apply Original_estimateTreeSize_emits |].
    intros [sz [e |]]; [apply emitsOnly_ret | apply IH].
Qed.

Lemma Original_deleteLoop_emits dryRun dirs :
  emitsOnly notDu (Original.deleteLoop dryRun dirs).
Proof.
  induction dirs as [| d dirs IH]; simpl.
  - apply emitsOnly_ret.
  - destruct dryRun.
    + apply emitsOnly_bind; [now apply emitsOnly_Printf | intros _; apply IH].
    + apply emitsOnly_bind; [now apply emitsOnly_Printf | intros _].
      apply emitsOnly_bind; [now apply emitsOnly_RemoveAll |].
      intros [e |]; [apply emitsOnly_ret | apply IH].
Qed.

Lemma Original_run_phases tmpRoot dryRun w :
  String.eqb tmpRoot "" = false ->
  Original.run tmpRoot dryRun w =
  let '(dirs, err, w1, ev1) := Original.scanForToplevelStuff tmpRoot w in
  match err with
  | Some e => (Some e, w1, ev1 ++ [])
  | None =>
      let '(totalBytes, err, w2, ev2) := Original.estimateLoop dirs 0%Z w1 in
      match err with
      | Some e => (Some e, w2, ev1 ++ ev2 ++ [])
      | None =>
          let '(r, w3, ev3) := Original.deleteLoop dryRun dirs w2 in
          (r, w3,
           ev1 ++ ev2 ++ Stdout (summary totalBytes (List.length dirs)) :: ev3)
      end
  end.
Proof.
  intros Hroot. unfold Original.run. rewrite Hroot.
  unfold bind at 1.
  destruct (Original.scanForToplevelStuff tmpRoot w) as [[[dirs [e |]] w1] ev1];
    [reflexivity |].
  unfold bind at 1.
  destruct (Original.estimateLoop dirs 0%Z w1) as [[[totalBytes [e |]] w2] ev2];
    [reflexivity |].
  unfold bind, Printf.
  destruct (Original.deleteLoop dryRun dirs w2) as [[r w3] ev3]. reflexivity.
Qed.

End OriginalEvents.

Lemma no_removal_inside (A before after : list event) (p : string) :
  forallb notRemoveAll A = true -> A <> before ++ RemoveAllCall p :: after.
Proof.
  intros HA E. subst A. rewrite forallb_app in HA.
  apply andb_true_iff in HA. destruct HA as [_ HA]. discriminate HA.
Qed.

(** X13. In the first revision the summary is printed between the two
    loops: whenever a run calls [os.RemoveAll], the summary line has been
    written before the first such call and after the last call of [du].
    In particular a run whose estimation fails removes nothing. *)
Theorem Original_summary_before_deletion
        (os : OS) tmpRoot dryRun w before p after :
  events (Original.run tmpRoot dryRun w) = before ++ RemoveAllCall p :: after ->
  dryRun = false /\
  forallb notDu after = true /\
  exists pre totalBytes count post,
    before = pre ++ Stdout (summary totalBytes count) :: post /\
    forallb notRemoveAll pre = true /\
    forallb notDu post = true.
Proof.
  intros E.
  destruct (String.eqb tmpRoot "") eqn:Hroot.
  { unfold Original.run in E. rewrite Hroot in E.
    destruct before; discriminate E. }
  rewrite (Original_run_phases tmpRoot dryRun w Hroot) in E.
  pose proof (Original_scan_emits tmpRoot w) as H1.
  destruct (Original.scanForToplevelStuff tmpRoot w) as [[[dirs [e |]] w1] ev1];
    unfold events in *; simpl in H1, E.
  { rewrite app_nil_r in E. now apply no_removal_inside in E. }
  pose proof (Original_estimateLoop_emits dirs 0%Z w1) as H2.
  destruct (Original.estimateLoop dirs 0%Z w1) as [[[totalBytes [e |]] w2] ev2];
    unfold events in *; simpl in H2, E.
  { rewrite app_nil_r in E. apply no_removal_inside in E; [contradiction |].
    now rewrite forallb_app, H1, H2. }
  pose proof (Original_deleteLoop_emits dryRun dirs w2) as H3.
  assert (Hdry : dryRun = false).
  { destruct dryRun; [| reflexivity]. exfalso.
    assert (Hno : forall ds w0,
               forallb notRemoveAll (events (Original.deleteLoop true ds w0)) = true).
    { induction ds as [| d ds IH]; intros w0; [reflexivity |].
      simpl. unfold bind, Printf. specialize (IH w0).
      destruct (Original.deleteLoop true ds w0) as [[r w'] ev]. exact IH. }
    specialize (Hno dirs w2).
    destruct (Original.deleteLoop true dirs w2) as [[r w3] ev3].
    unfold events in *. simpl in *.
    apply (no_removal_inside
             (ev1 ++ ev2 ++ Stdout (summary totalBytes (List.length dirs)) :: ev3)
             before after p); [| exact E].
    rewrite !forallb_app. simpl. now rewrite H1, H2, Hno. }
  split; [assumption |].
  destruct (Original.deleteLoop dryRun dirs w2) as [[r w3] ev3].
  unfold events in *. simpl in H3, E.
  set (S := Stdout (summary totalBytes (List.length dirs))) in *.
  assert (E' : (ev1 ++ ev2 ++ [S]) ++ ev3 = before ++ RemoveAllCall p :: after).
  { rewrite <- E. rewrite <- !app_assoc. reflexivity. }
  assert (HA : forallb notRemoveAll (ev1 ++ ev2 ++ [S]) = true)
    by (rewrite !forallb_app, H1, H2; reflexivity).
  destruct (after_first_phase _ _ _ _ _ E' HA eq_refl) as [l Hl].
  subst ev3. rewrite forallb_app in H3. apply andb_true_iff in H3.
  destruct H3 as [Hl Hafter]. simpl in Hafter.
  split; [assumption |].
  exists (ev1 ++ ev2), totalBytes, (List.length dirs), l. fold S.
  split; [| split; [now rewrite forallb_app, H1, H2 | assumption]].
  rewrite app_assoc in E'.
  apply app_inv_tail in E'. rewrite <- E'. now rewrite <- !app_assoc.
Qed.

Lemma Original_summary_before_deletion_witness :
  exists pre totalBytes count post,
    firstn 4 (events (@Original.run (scriptedOS scenarioListing du4096 rmOk)
                                    "/tmp" false [])) =
    pre ++ Stdout (summary totalBytes count) :: post /\
    forallb notRemoveAll pre = true /\
    forallb notDu post = true.
Proof.
  exact (proj2 (proj2
           (Original_summary_before_deletion
              (scriptedOS scenarioListing du4096 rmOk) "/tmp" false []
              (firstn 4 (events (@Original.run
                                   (scriptedOS scenarioListing du4096 rmOk)
                                   "/tmp" false [])))
              "/tmp/go-build-123"
              (skipn 5 (events (@Original.run
                                  (scriptedOS scenarioListing du4096 rmOk)
                                  "/tmp" false [])))
              eq_refl))).
Defined.

(** ** The later revision against [main.go] *)

Section RevisedSteps.
Context {os : OS}.

Lemma Revised_estimateLoop_step d rest totalBytes w :
  Revised.estimateLoop (d :: rest) totalBytes w =
  let '(sz, err, w1, ev1) := estimateTreeSize d w in
  match err with
  | Some e =>
      if describesPermissionDenied e then
        let '(r, w2, ev2) :=
          Revised.estimateLoop rest (add64 totalBytes sz) w1 in
        (r, w2,
         ev1 ++ Stderr ("WARN: " ++ ("skipping " ++ d ++ " for estimation: " ++ e)
                                ++ LF) :: ev2)
      else
        (totalBytes,
         Some ("could not estimate tree size of " ++ d ++ ": " ++ e)%string,
         w1, ev1 ++ [])
  | None =>
      let '(r, w2, ev2) := Revised.estimateLoop rest (add64 totalBytes sz) w1 in
      (r, w2, ev1 ++ ev2)
  end.
Proof.
  cbn [Revised.estimateLoop]. unfold bind at 1.
  destruct (estimateTreeSize d w) as [[[sz [e |]] w1] ev1];
    unfold Revised.isPermDenied, describesPermissionDenied; [| reflexivity].
  destruct (strings.Contains (strings.ToLower e) "permission denied");
    [| reflexivity].
  unfold bind, Revised.logWarn, Eprintf.
  destruct (Revised.estimateLoop rest (add64 totalBytes sz) w1) as [[r w2] ev2].
  reflexivity.
Qed.

Lemma Revised_deleteLoop_step d rest w :
  Revised.deleteLoop false (d :: rest) w =
  let '(err, w1) := os_RemoveAll d w in
  match err with
  | Some e =>
      if describesPermissionDenied e then
        let '(r, w2, ev2) := Revised.deleteLoop false rest w1 in
        (r, w2,
         Stdout ("INFO: " ++ ("deleting: " ++ d) ++ LF) :: RemoveAllCall d ::
         Stderr ("WARN: " ++ ("skipping " ++ d ++ " for deletion: " ++ e) ++ LF)
         :: ev2)
      else
        (Some ("failed to delete cruft " ++ d ++ ": " ++ e)%string, w1,
         [Stdout ("INFO: " ++ ("deleting: " ++ d) ++ LF); RemoveAllCall d])
  | None =>
      let '(r, w2, ev2) := Revised.deleteLoop false rest w1 in
      (r, w2, Stdout ("INFO: " ++ ("deleting: " ++ d) ++ LF) :: RemoveAllCall d :: ev2)
  end.
Proof.
  cbn [Revised.deleteLoop]. unfold bind at 1 2.
  unfold Revised.logInfo, Printf, RemoveAll.
  destruct (os_RemoveAll d w) as [[e |] w1].
  - unfold Revised.isPermDenied, describesPermissionDenied.
    destruct (strings.Contains (strings.ToLower e) "permission denied");
      [| reflexivity].
    unfold bind, Revised.logWarn, Eprintf.
    destruct (Revised.deleteLoop false rest w1) as [[r w2] ev2]. reflexivity.
  - destruct (Revised.deleteLoop false rest w1) as [[r w2] ev2]. reflexivity.
Qed.

Lemma Revised_deleteLoop_dry_step d rest w :
  Revised.deleteLoop true (d :: rest) w =
  let '(r, w2, ev2) := Revised.deleteLoop true rest w in
  (r, w2, Stdout ("INFO: " ++ ("DRY-RUN: deleting " ++ d) ++ LF) :: ev2).
Proof.
  cbn [Revised.deleteLoop]. unfold bind, Revised.logInfo, Printf.
  destruct (Revised.deleteLoop true rest w) as [[r w2] ev2]. reflexivity.
Qed.

Lemma Revised_run_phases tmpRoot dryRun w :
  String.eqb tmpRoot "" = false ->
  Revised.run tmpRoot dryRun w =
  let '(dirs, err, w1, ev1) := Revised.scanForToplevelStuff tmpRoot w in
  match err with
  | Some e => (Some ("failed to scan for cruft: " ++ e)%string, w1, ev1 ++ [])
  | None =>
      let '(totalBytes, err, w2, ev2) := Revised.estimateLoop dirs 0%Z w1 in
      match err with
      | Some e => (Some e, w2, ev1 ++ ev2 ++ [])
      | None =>
          let '(err, w3, ev3) := Revised.deleteLoop dryRun dirs w2 in
          match err with
          | Some e => (Some e, w3, ev1 ++ ev2 ++ ev3 ++ [])
          | None =>
              (None, w3,
               ev1 ++ ev2 ++ ev3 ++
               [Stdout ("INFO: " ++
                        ("estimated savings ~" ++ humanizeBytes totalBytes ++
                         " from " ++
                         strconv.FormatInt (Z.of_nat (List.length dirs)) ++
                         " directories") ++ LF)])
          end
      end
  end.
Proof.
  intros Hroot. unfold Revised.run. rewrite Hroot.
  unfold bind at 1.
  destruct (Revised.scanForToplevelStuff tmpRoot w) as [[[dirs [e |]] w1] ev1];
    [reflexivity |].
  unfold bind at 1.
  destruct (Revised.estimateLoop dirs 0%Z w1) as [[[totalBytes [e |]] w2] ev2];
    [reflexivity |].
  unfold bind at 1.
  destruct (Revised.deleteLoop dryRun dirs w2) as [[[e |] w3] ev3]; reflexivity.
Qed.

Lemma Revised_scan_listing tmpRoot w w1 files :
  os_ReadDir tmpRoot w = ((files, None), w1) ->
  Revised.scanForToplevelStuff tmpRoot w =
  (candidates tmpRoot files, None, w1, [ReadDirCall tmpRoot] ++ []).
Proof.
  intros H. unfold Revised.scanForToplevelStuff, bind, ReadDir, ret. rewrite H.
  now rewrite collect_loop.
Qed.

Lemma calls_app (a b : list event) : calls (a ++ b) = calls a ++ calls b.
Proof. apply filter_app. Qed.

Lemma Revised_estimateLoop_follows dirs :
  forall totalBytes w total w' ev,
    estimateLoop dirs totalBytes w = (total, None, w', ev) ->
    exists ev',
      Revised.estimateLoop dirs totalBytes w = (total, None, w', ev') /\
      calls ev' = calls ev.
Proof.
  induction dirs as [| d dirs IH]; intros totalBytes w total w' ev H.
  - simpl in *. unfold ret in *. inversion H; subst. now exists [].
  - rewrite estimateLoop_step in H. rewrite Revised_estimateLoop_step.
    destruct (estimateTreeSize d w) as [[[sz [e |]] w1] ev1].
    + destruct (strings.Contains e "Permission denied") eqn:He;
        [| discriminate].
      rewrite (Permission_denied_described e He).
      destruct (estimateLoop dirs (add64 totalBytes sz) w1)
        as [[r w2] ev2] eqn:Er.
      inversion H; subst.
      destruct (IH _ _ _ _ _ Er) as [ev' [Er' Hc]]. rewrite Er'.
      eexists. split; [reflexivity |].
      rewrite !calls_app. simpl. now rewrite Hc.
    + destruct (estimateLoop dirs (add64 totalBytes sz) w1)
        as [[r w2] ev2] eqn:Er.
      inversion H; subst.
      destruct (IH _ _ _ _ _ Er) as [ev' [Er' Hc]]. rewrite Er'.
      eexists. split; [reflexivity |].
      rewrite !calls_app. now rewrite Hc.
Qed.

Lemma Revised_deleteLoop_follows dryRun dirs :
  forall w w' ev,
    deleteLoop dryRun dirs w = (None, w', ev) ->
    exists ev',
      Revised.deleteLoop dryRun dirs w = (None, w', ev') /\
      calls ev' = calls ev.
Proof.
  induction dirs as [| d dirs IH]; intros w w' ev H.
  - simpl in *. unfold ret in *. inversion H; subst. now exists [].
  - destruct dryRun.
    + rewrite deleteLoop_dry_step in H. rewrite Revised_deleteLoop_dry_step.
      destruct (deleteLoop true dirs w) as [[r w2] ev2] eqn:Er.
      inversion H; subst.
      destruct (IH _ _ _ Er) as [ev' [Er' Hc]]. rewrite Er'.
      eexists. split; [reflexivity |]. simpl. exact Hc.
    + rewrite deleteLoop_step in H. rewrite Revised_deleteLoop_step.
      destruct (os_RemoveAll d w) as [[e |] w1].
      * destruct (strings.Contains e "Permission denied") eqn:He;
          [| discriminate].
        rewrite (Permission_denied_described e He).
        destruct (deleteLoop false dirs w1) as [[r w2] ev2] eqn:Er.
        inversion H; subst.
        destruct (IH _ _ _ Er) as [ev' [Er' Hc]]. rewrite Er'.
        eexists. split; [reflexivity |]. simpl. now rewrite Hc.
      * destruct (deleteLoop false dirs w1) as [[r w2] ev2] eqn:Er.
        inversion H; subst.
        destruct (IH _ _ _ Er) as [ev' [Er' Hc]]. rewrite Er'.
        eexists. split; [reflexivity |]. simpl. now rewrite Hc.
Qed.

End RevisedSteps.

(** X14. The later revision tolerates whatever [main.go] tolerates: on
    every input on which [run] of [main.go] completes without error, so
    does [run] of the later revision, with the same calls to the
    operating system in the same order and the same world at the end;
    the two differ only in the text they print. *)
Theorem Revised_completes_when_main_does (os : OS) tmpRoot dryRun w :
  result (run tmpRoot dryRun w) = None ->
  result (Revised.run tmpRoot dryRun w) = None /\
  world (Revised.run tmpRoot dryRun w) = world (run tmpRoot dryRun w) /\
  calls (events (Revised.run tmpRoot dryRun w)) =
  calls (events (run tmpRoot dryRun w)).
Proof.
  intros H.
  destruct (String.eqb tmpRoot "") eqn:Hroot.
  { unfold run in H. rewrite Hroot in H. discriminate H. }
  rewrite (run_phases tmpRoot dryRun w Hroot) in H |- *.
  rewrite (Revised_run_phases tmpRoot dryRun w Hroot).
  destruct (os_ReadDir tmpRoot w) as [[files [e |]] w1] eqn:Hls.
  { rewrite (scan_listing_fails tmpRoot w w1 files e Hls) in H.
    discriminate H. }
  rewrite (scan_listing tmpRoot w w1 files Hls) in H |- *.
  rewrite (Revised_scan_listing tmpRoot w w1 files Hls).
  set (dirs := candidates tmpRoot files) in *.
  destruct (estimateLoop dirs 0%Z w1) as [[[totalBytes [e |]] w2] ev2] eqn:E2;
    [discriminate H |].
  destruct (Revised_estimateLoop_follows dirs _ _ _ _ _ E2) as [ev2' [E2' Hc2]].
  rewrite E2'.
  destruct (deleteLoop dryRun dirs w2) as [[[e |] w3] ev3] eqn:E3;
    [discriminate H |].
  destruct (Revised_deleteLoop_follows dryRun dirs _ _ _ E3) as [ev3' [E3' Hc3]].
  rewrite E3'.
  unfold result, world, events. cbn [fst snd].
  split; [reflexivity |]. split; [reflexivity |].
  rewrite !calls_app, Hc2, Hc3. reflexivity.
Qed.

Lemma Revised_completes_when_main_does_witness :
  result (@Revised.run (scriptedOS scenarioListing (duDenied "/tmp/snapshot.bin")
                                   (rmDenied "/tmp/go-build-123"))
                       "/tmp" false []) = None.
Proof.
  exact (proj1 (Revised_completes_when_main_does
                  (scriptedOS scenarioListing (duDenied "/tmp/snapshot.bin")
                              (rmDenied "/tmp/go-build-123"))
                  "/tmp" false [] eq_refl)).
Defined.

Lemma Revised_estimateLoop_completes {os : OS} dirs :
  (forall d w sz e w1 ev,
      In d dirs -> estimateTreeSize d w = (sz, Some e, w1, ev) ->
      describesPermissionDenied e = true) ->
  forall totalBytes w,
    snd (result (Revised.estimateLoop dirs totalBytes w)) = None /\
    removals (events (Revised.estimateLoop dirs totalBytes w)) = [].
Proof.
  induction dirs as [| d dirs IH]; intros Hest totalBytes w;
    [split; reflexivity |].
  rewrite Revised_estimateLoop_step.
  destruct (estimateTreeSize_shape d w) as [sz [err [w1 [E _]]]].
  assert (Hev : removals (if String.eqb d "" then [] else [DuCall d]) = [])
    by (destruct (String.eqb d ""); reflexivity).
  rewrite E.
  assert (Hrest : snd (result (Revised.estimateLoop dirs (add64 totalBytes sz) w1))
                  = None /\
                  removals (events (Revised.estimateLoop dirs
                                      (add64 totalBytes sz) w1)) = []).
  { apply IH. intros d' w0 sz' e' w1' ev' Hin. apply Hest. now right. }
  destruct err as [e |].
  - rewrite (Hest d w sz e w1 _ (or_introl eq_refl) E).
    destruct (Revised.estimateLoop dirs (add64 totalBytes sz) w1) as [[r w2] ev2].
    unfold events, result in *. cbn [fst snd] in *.
    split; [tauto |]. rewrite removals_app, Hev. simpl. tauto.
  - destruct (Revised.estimateLoop dirs (add64 totalBytes sz) w1) as [[r w2] ev2].
    unfold events, result in *. cbn [fst snd] in *.
    split; [tauto |]. rewrite removals_app, Hev. simpl. tauto.
Qed.

Lemma Revised_deleteLoop_completes {os : OS} :
  (forall p w e w1, os_RemoveAll p w = (Some e, w1) ->
                    describesPermissionDenied e = true) ->
  forall dirs w,
    result (Revised.deleteLoop false dirs w) = None /\
    removals (events (Revised.deleteLoop false dirs w)) = dirs.
Proof.
  intros Hrm. induction dirs as [| d dirs IH]; intros w; [split; reflexivity |].
  rewrite Revised_deleteLoop_step.
  destruct (os_RemoveAll d w) as [[e |] w1] eqn:E.
  - rewrite (Hrm d w e w1 E). specialize (IH w1).
    destruct (Revised.deleteLoop false dirs w1) as [[r w2] ev2].
    unfold events, result in *. cbn [fst snd] in *.
    split; [tauto |]. simpl. f_equal. tauto.
  - specialize (IH w1).
    destruct (Revised.deleteLoop false dirs w1) as [[r w2] ev2].
    unfold events, result in *. cbn [fst snd] in *.
    split; [tauto |]. simpl. f_equal. tauto.
Qed.


Lemma scripted_du_not_executable (d : string) (w0 : list string) sz e w2 ev :
  @estimateTreeSize (scriptedOS scenarioListing
                                (duNotExecutable "/tmp/snapshot.bin")
                                (rmGoDenied "/tmp/go-build-123"))
                    d w0 = (sz, Some e, w2, ev) ->
  In d (candidates "/tmp" scenarioListing) ->
  describesPermissionDenied e = true.
Proof.
  intros H Hin. simpl in Hin.
  destruct Hin as [<- | [<- | [<- | []]]]; inversion H; reflexivity.
Qed.

Lemma scripted_rm_go_denied (p : string) (w0 : list string) e w2 :
  @os_RemoveAll (scriptedOS scenarioListing
                            (duNotExecutable "/tmp/snapshot.bin")
                            (rmGoDenied "/tmp/go-build-123"))
                p w0 = (Some e, w2) ->
  describesPermissionDenied e = true.
Proof.
  simpl. unfold rmGoDenied.
  destruct (String.eqb_spec p "/tmp/go-build-123") as [-> | _];
    intros H; inversion H; reflexivity.
Qed.


(** ** Candidates are children of the root *)

Section JoinChild.

Let notSep (c : ascii) : bool := negb (Ascii.eqb c filepath.Separator).

Let goodElem (e : string) : Prop :=
  e <> "" /\ e <> "." /\ allBytes notSep e = true.

Lemma Split_nonempty (s : string) : strings.Split filepath.Separator s <> [].
Proof.
  destruct s as [| c s]; simpl; [discriminate |].
  destruct (Ascii.eqb c filepath.Separator); [discriminate |].
  destruct (strings.Split filepath.Separator s); discriminate.
Qed.

Lemma Split_plain (name : string) :
  allBytes notSep name = true ->
  strings.Split filepath.Separator name = [name].
Proof.
  induction name as [| c name IH]; intros H; [reflexivity |].
  simpl in *. apply andb_true_iff in H. destruct H as [Hc H].
  unfold notSep in Hc. apply negb_true_iff in Hc. rewrite Hc.
  now rewrite (IH H).
Qed.

Lemma Split_snoc (root name : string) :
  allBytes notSep name = true ->
  strings.Split filepath.Separator (root ++ String filepath.Separator name) =
  strings.Split filepath.Separator root ++ [name].
Proof.
  intros H. induction root as [| c root IH].
  - simpl. now rewrite (Split_plain name H).
  - cbn [append strings.Split]. rewrite IH.
    destruct (Ascii.eqb c filepath.Separator); [reflexivity |].
    pose proof (Split_nonempty root) as Hne.
    destruct (strings.Split filepath.Separator root) as [| hd tl];
      [contradiction | reflexivity].
Qed.

Lemma Split_elems (s : string) :
  Forall (fun e => allBytes notSep e = true) (strings.Split filepath.Separator s).
Proof.
  induction s as [| c s IH]; simpl; [repeat constructor |].
  destruct (Ascii.eqb c filepath.Separator) eqn:Hc.
  - constructor; [reflexivity | assumption].
  - destruct (strings.Split filepath.Separator s) as [| hd tl];
      [repeat constructor; simpl; unfold notSep; now rewrite Hc |].
    inversion IH; subst. constructor; [| assumption].
    simpl. unfold notSep at 1. now rewrite Hc.
Qed.

Lemma cleanElems_snoc (rooted : bool) (name : string) :
  name <> "" -> name <> "." -> name <> ".." ->
  forall es out,
    filepath.cleanElems rooted (es ++ [name]) out =
    filepath.cleanElems rooted es out ++ [name].
Proof.
  intros H0 H1 H2. induction es as [| e es IH]; intros out.
  - simpl. destruct (String.eqb_spec name ""); [contradiction |].
    destruct (String.eqb_spec name "."); [contradiction |].
    destruct (String.eqb_spec name ".."); [contradiction |]. reflexivity.
  - cbn [app filepath.cleanElems].
    destruct (String.eqb e ""); [apply IH |].
    destruct (String.eqb e "."); [apply IH |].
    destruct (String.eqb e "..").
    + destruct out as [| top out']; [apply IH |].
      destruct (String.eqb top ".."); apply IH.
    + apply IH.
Qed.

Lemma cleanElems_good (rooted : bool) :
  forall es out,
    Forall (fun e => allBytes notSep e = true) es ->
    Forall goodElem out ->
    Forall goodElem (filepath.cleanElems rooted es out).
Proof.
  induction es as [| e es IH]; intros out Hes Hout.
  - simpl. apply Forall_rev. assumption.
  - inversion Hes as [| e' es' He Hes']; subst.
    cbn [filepath.cleanElems].
    destruct (String.eqb_spec e ""); [now apply IH |].
    destruct (String.eqb_spec e "."); [now apply IH |].
    assert (Hgood : goodElem e) by (repeat split; assumption).
    destruct (String.eqb e "..").
    + destruct out as [| top out'].
      * apply IH; [assumption |]. destruct rooted; [assumption |].
        constructor; assumption.
      * inversion Hout; subst.
        destruct (String.eqb top "..").
        -- apply IH; [assumption |]. destruct rooted; [assumption |].
           constructor; assumption.
        -- now apply IH.
    + apply IH; [assumption |]. constructor; assumption.
Qed.

Lemma Join_snoc (l : list string) (name : string) :
  strings.Join (l ++ [name]) "/" =
  match l with
  | [] => name
  | _ => (strings.Join l "/" ++ "/" ++ name)%string
  end.
Proof.
  induction l as [| e l IH]; [reflexivity |].
  destruct l as [| e' l']; [reflexivity |].
  change ((e :: e' :: l') ++ [name]) with (e :: ((e' :: l') ++ [name])).
  cbn [strings.Join app] in *. rewrite IH.
  now rewrite !string_app_assoc.
Qed.

Lemma Join_good (l : list string) :
  l <> [] -> Forall goodElem l ->
  strings.Join l "/" <> "" /\ strings.Join l "/" <> "." /\
  strings.Join l "/" <> "/".
Proof.
  intros Hne Hl. destruct l as [| e l]; [contradiction |].
  inversion Hl as [| e0 l0 [He0 [He1 He2]] _]; subst.
  destruct l as [| e' l'].
  - simpl. repeat split; try assumption.
    intros ->. discriminate He2.
  - cbn [strings.Join]. destruct e as [| c e]; [contradiction |].
    simpl. repeat split; try discriminate.
    + intros H. inversion H as [[Hc Hrest]]. destruct e; discriminate.
    + intros H. inversion H as [[Hc Hrest]]. destruct e; discriminate.
Qed.

Lemma Join_is_child (root name : string) :
  root <> "" -> plainName name = true ->
  filepath.Join root name = child (filepath.Clean root) name.
Proof.
  intros Hroot Hplain. unfold plainName in Hplain.
  repeat (apply andb_true_iff in Hplain; destruct Hplain as [Hplain ?]).
  repeat match goal with
         | H : negb (String.eqb _ _) = true |- _ =>
             apply negb_true_iff, String.eqb_neq in H
         end.
  fold notSep in H.
  unfold filepath.Join.
  destruct (String.eqb_spec root "") as [| _]; [contradiction |]. simpl negb.
  cbv iota.
  destruct root as [| c r]; [contradiction |].
  change ((String c r ++ "/" ++ name)%string)
    with (String c (r ++ String filepath.Separator name)).
  unfold filepath.Clean.
  change (String c (r ++ String filepath.Separator name))
    with ((String c r ++ String filepath.Separator name)%string).
  rewrite (Split_snoc (String c r) name H).
  rewrite (cleanElems_snoc _ name Hplain H1 H0).
  rewrite Join_snoc.
  set (L := filepath.cleanElems (Ascii.eqb c filepath.Separator)
                                (strings.Split filepath.Separator (String c r)) []).
  assert (HL : Forall goodElem L)
    by (apply cleanElems_good; [apply Split_elems | constructor]).
  cbn [append]. unfold child.
  destruct (Ascii.eqb c filepath.Separator) eqn:Hc.
  - destruct L as [| e L'] eqn:EL; [reflexivity |].
    destruct (Join_good (e :: L') ltac:(discriminate) HL) as [J0 _].
    destruct (strings.Join (e :: L') "/") as [| j J] eqn:EJ; [contradiction |].
    reflexivity.
  - destruct L as [| e L'] eqn:EL.
    + simpl. destruct (String.eqb_spec name ""); [contradiction | reflexivity].
    + destruct (Join_good (e :: L') ltac:(discriminate) HL) as [J0 [J1 J2]].
      set (J := strings.Join (e :: L') "/") in *.
      destruct (String.eqb_spec J ""); [contradiction |].
      destruct (String.eqb_spec J "/"); [contradiction |].
      destruct (String.eqb_spec J "."); [contradiction |].
      match goal with
      | |- context [String.eqb ?x ""] =>
          destruct (String.eqb_spec x "") as [E |]; [| reflexivity]
      end.
      destruct J; [contradiction | discriminate E].
Qed.

End JoinChild.

(** X16. When the root is not empty and the listing names its entries
    plainly (no separator in a name, no empty name, no [.] or [..]), every
    candidate lies directly under the cleaned root and keeps the name of
    its entry: it is the cleaned root, a separator and the name (without
    the separator under [/], and the bare name under [.]). *)
Theorem candidates_are_children (os : OS) tmpRoot w w1 files :
  tmpRoot <> "" ->
  os_ReadDir tmpRoot w = ((files, None), w1) ->
  Forall (fun st => plainName (Name st) = true) files ->
  fst (result (scanForToplevelStuff tmpRoot w)) =
  map (fun st => child (filepath.Clean tmpRoot) (Name st))
      (filter eligible files).
Proof.
  intros Hroot Hls Hplain.
  rewrite (scan_listing tmpRoot w w1 files Hls). unfold result. cbn [fst].
  unfold candidates. apply map_ext_in. intros st Hin.
  apply Join_is_child; [assumption |].
  apply filter_In in Hin. destruct Hin as [Hin _].
  rewrite Forall_forall in Hplain. now apply Hplain.
Qed.

Lemma candidates_are_children_witness :
  fst (result (@scanForToplevelStuff (scriptedOS scenarioListing du4096 rmOk)
                                     "/tmp//./x/../" [])) =
  ["/tmp/go-build-123"; "/tmp/snapshot.bin"; "/tmp/gopls.abc-heap.pb.gz"].
Proof.
  exact (candidates_are_children
           (scriptedOS scenarioListing du4096 rmOk) "/tmp//./x/../" [] []
           scenarioListing ltac:(discriminate) eq_refl
           ltac:(repeat constructor)).
Defined.

(** ** A fatal estimation error *)

Lemma estimateLoop_stops {os : OS} (d : string) (post : list string)
      (sz : Z) (e : error) (w3 : World) (ev3 : list event) :
  strings.Contains e "Permission denied" = false ->
  forall pre totalBytes w t2 w2 ev2,
    estimateLoop pre totalBytes w = (t2, None, w2, ev2) ->
    estimateTreeSize d w2 = (sz, Some e, w3, ev3) ->
    estimateLoop (pre ++ d :: post) totalBytes w = (t2, Some e, w3, ev2 ++ ev3).
Proof.
  intros He. induction pre as [| p pre IH]; intros totalBytes w t2 w2 ev2 Hpre Hd.
  - simpl in Hpre. unfold ret in Hpre. inversion Hpre; subst.
    cbn [app]. rewrite estimateLoop_step, Hd, He. now rewrite app_nil_r.
  - cbn [app]. rewrite estimateLoop_step in Hpre |- *.
    destruct (estimateTreeSize p w) as [[[sz' [e' |]] w1] ev1].
    + destruct (strings.Contains e' "Permission denied"); [| discriminate].
      destruct (estimateLoop pre (add64 totalBytes sz') w1)
        as [[r w2'] ev2'] eqn:E.
      inversion Hpre; subst.
      rewrite (IH _ _ _ _ _ E Hd). cbn [app]. now rewrite <- app_assoc.
    + destruct (estimateLoop pre (add64 totalBytes sz') w1)
        as [[r w2'] ev2'] eqn:E.
      inversion Hpre; subst.
      rewrite (IH _ _ _ _ _ E Hd). now rewrite <- app_assoc.
Qed.

Lemma quiet_removals (evs : list event) :
  forallb notRemoveAll evs = true -> removals evs = [].
Proof.
  induction evs as [| ev evs IH]; [reflexivity |]. simpl.
  intros H. apply andb_true_iff in H. destruct H as [Hev H].
  destruct ev; try discriminate Hev; simpl; now apply IH.
Qed.

(** X17. When measuring a candidate fails with an error that [main.go]
    does not recognise as "Permission denied", the run returns that
    error at once: no candidate after it is measured, nothing at all is
    removed, in a live run as in a dry one, and no summary is printed. *)
Theorem fatal_estimation_aborts
        (os : OS) tmpRoot dryRun w pre d post w1 ev1 t2 w2 ev2 sz e w3 ev3 :
  String.eqb tmpRoot "" = false ->
  scanForToplevelStuff tmpRoot w = (pre ++ d :: post, None, w1, ev1) ->
  estimateLoop pre 0%Z w1 = (t2, None, w2, ev2) ->
  estimateTreeSize d w2 = (sz, Some e, w3, ev3) ->
  strings.Contains e "Permission denied" = false ->
  run tmpRoot dryRun w = (Some e, w3, ev1 ++ ev2 ++ ev3) /\
  removals (ev1 ++ ev2 ++ ev3) = [] /\
  measurements (ev1 ++ ev2 ++ ev3) = pre ++ (if String.eqb d "" then [] else [d]).
Proof.
  intros Hroot Hscan Hpre Hd He.
  split; [| split].
  - rewrite (run_phases tmpRoot dryRun w Hroot), Hscan.
    rewrite (estimateLoop_stops d post sz e w3 ev3 He pre 0%Z w1 t2 w2 ev2 Hpre Hd).
    now rewrite app_nil_r.
  - pose proof (scanForToplevelStuff_emits tmpRoot w) as H1.
    pose proof (estimateLoop_emits pre 0%Z w1) as H2.
    pose proof (estimateTreeSize_emits d w2) as H3.
    rewrite Hscan in H1. rewrite Hpre in H2. rewrite Hd in H3.
    unfold events in *. simpl in *.
    apply quiet_removals. now rewrite !forallb_app, H1, H2, H3.
  - assert (M1 : measurements ev1 = []).
    { unfold scanForToplevelStuff, bind, ReadDir, ret in Hscan.
      destruct (os_ReadDir tmpRoot w) as [[files [e' |]] w'];
        inversion Hscan; reflexivity. }
    destruct (estimateLoop_trace pre 0%Z w1) as [_ [_ M2]].
    rewrite Hpre in M2. unfold events, result in M2. simpl in M2.
    destruct (estimateTreeSize_shape d w2) as [sz' [err' [w' [E _]]]].
    rewrite Hd in E. inversion E as [[Hsz Herr Hw Hev]].
    rewrite !measurements_app, M1, (M2 eq_refl). simpl. f_equal.
    destruct (String.eqb d ""); reflexivity.
Qed.

Lemma fatal_estimation_aborts_witness :
  @run (scriptedOS scenarioListing (duNotExecutable "/tmp/snapshot.bin") rmOk)
       "/tmp" false [] =
  (Some "fork/exec /usr/bin/du: permission denied: ", [],
   [ReadDirCall "/tmp"] ++ [DuCall "/tmp/go-build-123"] ++
   [DuCall "/tmp/snapshot.bin"]).
Proof.
  exact (proj1 (fatal_estimation_aborts
                  (scriptedOS scenarioListing
                              (duNotExecutable "/tmp/snapshot.bin") rmOk)
                  "/tmp" false [] ["/tmp/go-build-123"] "/tmp/snapshot.bin"
                  ["/tmp/gopls.abc-heap.pb.gz"] [] [ReadDirCall "/tmp"]
                  4096%Z [] [DuCall "/tmp/go-build-123"] 0%Z
                  "fork/exec /usr/bin/du: permission denied: " []
                  [DuCall "/tmp/snapshot.bin"]
                  eq_refl eq_refl eq_refl eq_refl eq_refl)).
Defined.

(** ** Names that can be selected *)

Lemma from_next (i : nat) (w : string) (c : ascii) (rest : string) :
  strings.from i w = String c rest -> strings.from (S i) w = rest.
Proof.
  revert i. induction w as [| a w IH]; intros i H.
  - rewrite from_nil in H. discriminate.
  - destruct i as [| i]; simpl in *; [now inversion H | now apply IH].
Qed.

Lemma Matches_lit (w s : string) :
  forall i j, Matches w (lit s) i j ->
              exists rest, strings.from i w = (s ++ rest)%string.
Proof.
  induction s as [| c s IH]; intros i j H.
  - exists (strings.from i w). reflexivity.
  - destruct s as [| c' s'].
    + simpl in H. inversion H; subst. simpl. eexists. eassumption.
    + change (lit (String c (String c' s')))
        with (OpConcat (OpLiteral c) (lit (String c' s'))) in H.
      inversion H as [ | | | | | r1 r2 i' m j' H1 H2 | | | | ]; subst.
      inversion H1 as [ | c0 i0 rest0 E | | | | | | | | ]; subst.
      destruct (IH _ _ H2) as [rest Hrest].
      apply from_next in E as E'. rewrite E' in Hrest.
      exists rest. rewrite E, Hrest. reflexivity.
Qed.

Lemma anchored_literal_prefix (w p : string) (r : Regexp) (i j : nat) :
  Matches w (OpConcat OpBeginText (OpConcat (lit p) r)) i j -> StartsWith w p.
Proof.
  intros H.
  inversion H as [ | | | | | r1 r2 i' m j' H1 H2 | | | | ]; subst.
  inversion H1; subst.
  inversion H2 as [ | | | | | r1 r2 i' m' j' H3 H4 | | | | ]; subst.
  destruct (Matches_lit w p _ _ H3) as [rest Hrest].
  exists rest. exact Hrest.
Qed.

(** X18. Only names of a known beginning are ever selected: an eligible
    directory starts with one of the listed directory prefixes (the
    literal "consul-test" starts with "consul"), and an eligible file
    starts with "snapshot", "config-err-", "go.", "gopls." or "gopls-". *)
Theorem eligible_names_have_known_prefix (n : string) :
  (shouldDelete true n = true ->
   exists pfx, In pfx eligiblePrefixes /\ StartsWith n pfx) /\
  (shouldDelete false n = true ->
   exists pfx,
     In pfx ["snapshot"; "config-err-"; "go."; "gopls."; "gopls-"] /\
     StartsWith n pfx).
Proof.
  unfold shouldDelete. split.
  - destruct (String.eqb_spec n "consul-test") as [-> | _].
    + intros _. exists "consul". split; [simpl; tauto |].
      exists "-test". reflexivity.
    + intros H. now apply existsb_HasPrefix.
  - destruct (existsb (fun pfx => strings.HasPrefix n pfx) eligibleFilePrefixes)
      eqn:Hp.
    + intros _. apply existsb_HasPrefix in Hp. destruct Hp as [pfx [Hin Hs]].
      exists pfx. split; [| assumption]. simpl in *. tauto.
    + intros H. apply existsb_MatchString in H.
      destruct H as [patt [Hin H]]. unfold FullMatch in H. simpl in Hin.
      destruct Hin as [<- | [<- | [<- | [<- | [<- | []]]]]].
      * exists "go.". split; [simpl; tauto |].
        eapply (anchored_literal_prefix n "go."). exact H.
      * exists "gopls.". split; [simpl; tauto |].
        eapply (anchored_literal_prefix n "gopls."). exact H.
      * exists "gopls.". split; [simpl; tauto |].
        eapply (anchored_literal_prefix n "gopls."). exact H.
      * exists "gopls-". split; [simpl; tauto |].
        eapply (anchored_literal_prefix n "gopls-"). exact H.
      * exists "gopls.". split; [simpl; tauto |].
        eapply (anchored_literal_prefix n "gopls."). exact H.
Qed.

Lemma eligible_names_have_known_prefix_witness :
  exists pfx,
    In pfx ["snapshot"; "config-err-"; "go."; "gopls."; "gopls-"] /\
    StartsWith "gopls.abc-heap.pb.gz" pfx.
Proof.
  exact (proj2 (eligible_names_have_known_prefix "gopls.abc-heap.pb.gz")
               eq_refl).
Defined.
